(** * ReadScore readability analyzer: a shallow embedding of [src/analyzer.js]

    The analyzer is one JavaScript object, [ReadScoreAnalyzer], whose methods
    are pure functions of their arguments.  This development embeds them as
    Rocq functions and proves the properties the specification states about
    them.

    Conventions of the embedding:
    - a JavaScript string is a list of characters ([str]); a character is a
      code unit in the range U+0000..U+00FF (an [ascii] read as Latin-1), so
      texts with code units above U+00FF are outside the model;
    - numbers that the code obtains from lengths, indices and counters are
      [nat]; arithmetic that leaves the integers (divisions, the grade
      formula, roundings) is on binary64 floats, as in JavaScript;
    - regular expressions are syntax trees ([regex]) run by a backtracking
      matcher that follows the ECMAScript pattern semantics;
    - a call that can raise returns an [outcome]. *)

From Stdlib Require Import Ascii String Bool Arith PeanoNat NArith ZArith Lia List Sorted.
From Stdlib Require Import Floats Uint63 DecimalString.
Import ListNotations.

Set Implicit Arguments.

(* ================================================================== *)
(** * JavaScript strings *)
(* ================================================================== *)

Module JsString.

Definition str := list ascii.

(** String literals of the source are written [lit "..."]. *)
Definition lit (s : string) : str := list_ascii_of_string s.

Definition code (c : ascii) : N := N_of_ascii c.

Definition char_eqb (a b : ascii) : bool := Ascii.eqb a b.

Fixpoint str_eqb (a b : str) : bool :=
  match a, b with
  | [], [] => true
  | x :: a', y :: b' => char_eqb x y && str_eqb a' b'
  | _, _ => false
  end.

Definition in_range (lo hi : N) (c : ascii) : bool :=
  (lo <=? code c)%N && (code c <=? hi)%N.

(** [0-9] *)
Definition isDigit (c : ascii) : bool := in_range 48 57 c.
(** [A-Z] and [a-z] *)
Definition isUpperAZ (c : ascii) : bool := in_range 65 90 c.
Definition isLowerAZ (c : ascii) : bool := in_range 97 122 c.
(** [\w] is [A-Za-z0-9_] *)
Definition isWordChar (c : ascii) : bool :=
  isUpperAZ c || isLowerAZ c || isDigit c || (code c =? 95)%N.
(** Line terminators below U+0100: LF and CR. *)
Definition isLineTerminator (c : ascii) : bool :=
  (code c =? 10)%N || (code c =? 13)%N.
(** [\s], also what [trim] strips: TAB, LF, VT, FF, CR, SPACE and NBSP. *)
Definition isSpace (c : ascii) : bool :=
  in_range 9 13 c || (code c =? 32)%N || (code c =? 160)%N.

(** [String.prototype.toLowerCase] on Latin-1: A-Z, and U+00C0..U+00DE
    except the multiplication sign U+00D7, move up by 32. *)
Definition lowerChar (c : ascii) : ascii :=
  if isUpperAZ c || (in_range 192 222 c && negb (code c =? 215)%N)
  then ascii_of_N (code c + 32) else c.

(** The pattern semantics' [Canonicalize] (flag [i], no flag [u]): the
    upper-case form when it is a single code unit.  On Latin-1 that moves
    a-z and U+00E0..U+00FE except the division sign U+00F7 down by 32;
    U+00B5 and U+00FF go to code units of their own and U+00DF to itself,
    which leaves the induced equality on Latin-1 unchanged. *)
Definition canonChar (c : ascii) : ascii :=
  if isLowerAZ c || (in_range 224 254 c && negb (code c =? 247)%N)
  then ascii_of_N (code c - 32) else c.

Definition toLowerCase (s : str) : str := map lowerChar s.

Fixpoint trimStart (s : str) : str :=
  match s with
  | c :: s' => if isSpace c then trimStart s' else s
  | [] => []
  end.

Definition trimEnd (s : str) : str := rev (trimStart (rev s)).

Definition trim (s : str) : str := trimEnd (trimStart s).

Fixpoint startsWith (p s : str) : bool :=
  match p, s with
  | [], _ => true
  | x :: p', y :: s' => char_eqb x y && startsWith p' s'
  | _ :: _, [] => false
  end.

Definition endsWith (p s : str) : bool := startsWith (rev p) (rev s).

(** [s.includes(p)] *)
Fixpoint includes (p s : str) : bool :=
  startsWith p s ||
  match s with
  | [] => false
  | _ :: s' => includes p s'
  end.

(** [s.split(sep)] for a non-empty string separator: the pieces between the
    occurrences of [sep], left to right; always at least one piece. *)
Fixpoint split_aux (fuel : nat) (sep s acc : str) : list str :=
  match fuel with
  | 0 => [rev acc ++ s]
  | S fuel' =>
      match s with
      | [] => [rev acc]
      | c :: s' =>
          if startsWith sep s
          then rev acc :: split_aux fuel' sep (skipn (length sep) s) []
          else split_aux fuel' sep s' (c :: acc)
      end
  end.

Definition split (sep s : str) : list str := split_aux (S (length s)) sep s [].

(** [s[i]], as a one-character string; [None] is [undefined]. *)
Definition charAt (s : str) (i : nat) : option ascii := nth_error s i.

End JsString.

Import JsString.

(* ================================================================== *)
(** * Regular expressions *)
(* ================================================================== *)

(** The patterns of the analyzer use literals, classes, sequences,
    alternatives, greedy quantifiers, capturing groups, the assertions
    [^], [$] and [\b], look-ahead [(?=...)] and negative look-behind
    [(?<!...)], under the flags [g], [i] and [m].  The matcher below is the
    backtracking matcher of the ECMAScript pattern semantics in
    continuation-passing style: a matcher takes a state and a continuation
    and returns the first success in priority order. *)

Module Regex.

(** A member of a character class. *)
Inductive citem :=
| CChar (c : ascii)
| CRange (lo hi : ascii)
| CDigit
| CWord
| CSpace.

Inductive regex :=
| REmpty
| RChar (c : ascii)
| RClass (negated : bool) (items : list citem)
| RSeq (r1 r2 : regex)
| RAlt (r1 r2 : regex)
| RQuant (min : nat) (max : option nat) (r : regex)
| RGroup (i : nat) (r : regex)
| RBol
| REol
| RWordB
| RLookahead (r : regex)
| RNegLookbehind (r : regex).

Record flags := { ignoreCase : bool; multiline : bool }.

(** No flag that changes matching (the flag [g] is in the choice of the
    operation: [replace], [match_count], ...). *)
Definition plain : flags := {| ignoreCase := false; multiline := false |}.
Definition flag_i : flags := {| ignoreCase := true; multiline := false |}.
Definition flag_m : flags := {| ignoreCase := false; multiline := true |}.

(** A match state: the input before the current position (nearest character
    first), the input after it, and the captures so far (latest first). *)
Record mstate := { before : str; after : str; caps : list (nat * str) }.

Definition pos (x : mstate) : nat := length (before x).

Definition citem_mem (c : ascii) (it : citem) : bool :=
  match it with
  | CChar a => char_eqb a c
  | CRange lo hi => in_range (code lo) (code hi) c
  | CDigit => isDigit c
  | CWord => isWordChar c
  | CSpace => isSpace c
  end.

Definition class_mem (items : list citem) (c : ascii) : bool :=
  existsb (citem_mem c) items.

(** CharacterSetMatcher: without [i] plain membership; with [i] some member
    of the set has the canonical form of [c], and on Latin-1 the characters
    with the canonical form of [c] are [c], its upper and its lower form. *)
Definition class_match (fl : flags) (negated : bool) (items : list citem)
    (c : ascii) : bool :=
  let found :=
    if ignoreCase fl
    then class_mem items c || class_mem items (canonChar c)
         || class_mem items (lowerChar c)
    else class_mem items c in
  if negated then negb found else found.

Definition char_match (fl : flags) (a c : ascii) : bool :=
  if ignoreCase fl then char_eqb (canonChar a) (canonChar c) else char_eqb a c.

(** Read one character in the direction of the match and move over it. *)
Definition advance (fwd : bool) (x : mstate) : option (ascii * mstate) :=
  if fwd then
    match after x with
    | c :: a => Some (c, {| before := c :: before x; after := a; caps := caps x |})
    | [] => None
    end
  else
    match before x with
    | c :: b => Some (c, {| before := b; after := c :: after x; caps := caps x |})
    | [] => None
    end.

Definition step (R : Type) (fwd : bool) (p : ascii -> bool) (x : mstate)
    (k : mstate -> option R) : option R :=
  match advance fwd x with
  | Some (c, y) => if p c then k y else None
  | None => None
  end.

(** The input between the positions of two states. *)
Definition between (x y : mstate) : str :=
  if pos x <=? pos y then firstn (pos y - pos x) (after x)
  else firstn (pos x - pos y) (after y).

Definition is_word_at (s : str) : bool :=
  match s with
  | c :: _ => isWordChar c
  | [] => false
  end.

Definition at_bol (fl : flags) (x : mstate) : bool :=
  match before x with
  | [] => true
  | c :: _ => multiline fl && isLineTerminator c
  end.

Definition at_eol (fl : flags) (x : mstate) : bool :=
  match after x with
  | [] => true
  | c :: _ => multiline fl && isLineTerminator c
  end.

Definition at_word_boundary (x : mstate) : bool :=
  negb (Bool.eqb (is_word_at (before x)) (is_word_at (after x))).

(** The capturing groups inside a pattern: an iteration of a quantifier
    starts with them cleared. *)
Fixpoint groups_in (r : regex) : list nat :=
  match r with
  | RSeq r1 r2 | RAlt r1 r2 => groups_in r1 ++ groups_in r2
  | RQuant _ _ r' | RLookahead r' | RNegLookbehind r' => groups_in r'
  | RGroup i r' => i :: groups_in r'
  | _ => []
  end.

Definition clear_caps (gs : list nat) (x : mstate) : mstate :=
  {| before := before x; after := after x;
     caps := filter (fun p => negb (existsb (Nat.eqb (fst p)) gs)) (caps x) |}.

Definition set_cap (i : nat) (s : str) (x : mstate) : mstate :=
  {| before := before x; after := after x; caps := (i, s) :: caps x |}.

Definition with_caps (x y : mstate) : mstate :=
  {| before := before x; after := after x; caps := caps y |}.

Definition max_is_zero (max : option nat) : bool :=
  match max with
  | Some 0 => true
  | _ => false
  end.

(** [rmatch fl fwd r x k]: match [r] at [x] in direction [fwd], then [k].
    The quantifier is RepeatMatcher: an iteration that is not required and
    consumes nothing fails; every further iteration either lowers [min] or
    moves the position, so [min] plus the input length bounds the depth. *)
Fixpoint rmatch (R : Type) (fl : flags) (fwd : bool) (r : regex) (x : mstate)
    (k : mstate -> option R) {struct r} : option R :=
  match r with
  | REmpty => k x
  | RChar a => step fwd (char_match fl a) x k
  | RClass negated items => step fwd (class_match fl negated items) x k
  | RSeq r1 r2 =>
      if fwd
      then rmatch fl fwd r1 x (fun y => rmatch fl fwd r2 y k)
      else rmatch fl fwd r2 x (fun y => rmatch fl fwd r1 y k)
  | RAlt r1 r2 =>
      match rmatch fl fwd r1 x k with
      | Some z => Some z
      | None => rmatch fl fwd r2 x k
      end
  | RQuant min max r' =>
      (fix rep (fuel min : nat) (max : option nat) (x : mstate)
           {struct fuel} : option R :=
         match fuel with
         | 0 => None
         | S fuel' =>
             if max_is_zero max then k x
             else
               let d := fun y : mstate =>
                 if (min =? 0) && (pos y =? pos x) then None
                 else rep fuel' (Nat.pred min) (option_map Nat.pred max) y in
               let xr := clear_caps (groups_in r') x in
               if min =? 0 then
                 match rmatch fl fwd r' xr d with
                 | Some z => Some z
                 | None => k x
                 end
               else rmatch fl fwd r' xr d
         end)
        (S (min + length (before x) + length (after x))) min max x
  | RGroup i r' => rmatch fl fwd r' x (fun y => k (set_cap i (between x y) y))
  | RBol => if at_bol fl x then k x else None
  | REol => if at_eol fl x then k x else None
  | RWordB => if at_word_boundary x then k x else None
  | RLookahead r' =>
      match rmatch fl true r' x (fun y => Some y) with
      | Some y => k (with_caps x y)
      | None => None
      end
  | RNegLookbehind r' =>
      match rmatch fl false r' x (fun y => Some y) with
      | Some _ => None
      | None => k x
      end
  end.

(** ** Building patterns *)

Fixpoint rseq (rs : list regex) : regex :=
  match rs with
  | [] => REmpty
  | [r] => r
  | r :: rs' => RSeq r (rseq rs')
  end.

Fixpoint ralt (rs : list regex) : regex :=
  match rs with
  | [] => REmpty
  | [r] => r
  | r :: rs' => RAlt r (ralt rs')
  end.

(** A literal string in a pattern. *)
Definition rstr (s : str) : regex := rseq (map RChar s).

Definition rstar (r : regex) : regex := RQuant 0 None r.
Definition rplus (r : regex) : regex := RQuant 1 None r.
Definition ropt (r : regex) : regex := RQuant 0 (Some 1) r.
Definition rdigit : regex := RClass false [CDigit].
Definition rword : regex := RClass false [CWord].
Definition rspace : regex := RClass false [CSpace].
Definition rset (s : str) : regex := RClass false (map CChar s).

(** ** Operations of [String.prototype] and [RegExp.prototype] *)

(** One attempt at the position between [b] (reversed) and [a]. *)
Definition exec_at (fl : flags) (r : regex) (b a : str) : option mstate :=
  rmatch fl true r {| before := b; after := a; caps := [] |} (fun y => Some y).

Definition get_cap (i : nat) (cs : list (nat * str)) : str :=
  match find (fun p => fst p =? i) cs with
  | Some p => snd p
  | None => []
  end.

(** [s.replace(/r/g, f)]: every match, left to right, is replaced by
    [f matched captures]; after an empty match the search moves on by one
    character. *)
Fixpoint replace_loop (fuel : nat) (fl : flags) (r : regex)
    (f : str -> list (nat * str) -> str) (b a : str) : str :=
  match fuel with
  | 0 => a
  | S fuel' =>
      let '(out, next) :=
        match exec_at fl r b a with
        | Some y =>
            match firstn (pos y - length b) a with
            | [] => (f [] (caps y), None)
            | m => (f m (caps y), Some (before y, after y))
            end
        | None => ([], None)
        end in
      match next with
      | Some (b', a') => out ++ replace_loop fuel' fl r f b' a'
      | None =>
          match a with
          | [] => out
          | c :: a' => out ++ c :: replace_loop fuel' fl r f (c :: b) a'
          end
      end
  end.

Definition replace (fl : flags) (r : regex) (f : str -> list (nat * str) -> str)
    (s : str) : str :=
  replace_loop (S (length s)) fl r f [] s.

(** Replacement by a fixed string. *)
Definition replace_with (fl : flags) (r : regex) (by_ : str) (s : str) : str :=
  replace fl r (fun _ _ => by_) s.

(** [(s.match(/r/g) || []).length] *)
Fixpoint match_count_loop (fuel : nat) (fl : flags) (r : regex) (b a : str) : nat :=
  match fuel with
  | 0 => 0
  | S fuel' =>
      let '(found, next) :=
        match exec_at fl r b a with
        | Some y =>
            match firstn (pos y - length b) a with
            | [] => (1, None)
            | _ => (1, Some (before y, after y))
            end
        | None => (0, None)
        end in
      match next with
      | Some (b', a') => found + match_count_loop fuel' fl r b' a'
      | None =>
          match a with
          | [] => found
          | c :: a' => found + match_count_loop fuel' fl r (c :: b) a'
          end
      end
  end.

Definition match_count (fl : flags) (r : regex) (s : str) : nat :=
  match_count_loop (S (length s)) fl r [] s.

(** [/r/.test(s)]: a match at some position. *)
Fixpoint test_loop (fl : flags) (r : regex) (b a : str) : bool :=
  match exec_at fl r b a with
  | Some _ => true
  | None =>
      match a with
      | [] => false
      | c :: a' => test_loop fl r (c :: b) a'
      end
  end.

Definition test (fl : flags) (r : regex) (s : str) : bool := test_loop fl r [] s.

(** [s.split(/r/)] for a pattern without capturing groups: [acc] is the
    piece being read (reversed); a match that ends where the piece starts
    is skipped. *)
Fixpoint split_loop (fuel : nat) (fl : flags) (r : regex) (b a acc : str)
    : list str :=
  match fuel with
  | 0 => [rev acc ++ a]
  | S fuel' =>
      match a with
      | [] => [rev acc]
      | c :: a' =>
          match exec_at fl r b a with
          | Some y =>
              if (pos y =? length b) && (length acc =? 0)
              then split_loop fuel' fl r (c :: b) a' (c :: acc)
              else
                match firstn (pos y - length b) a with
                | [] => rev acc :: split_loop fuel' fl r (c :: b) a' [c]
                | _ => rev acc :: split_loop fuel' fl r (before y) (after y) []
                end
          | None => split_loop fuel' fl r (c :: b) a' (c :: acc)
          end
      end
  end.

Definition split_re (fl : flags) (r : regex) (s : str) : list str :=
  match s with
  | [] => match exec_at fl r [] [] with Some _ => [] | None => [[]] end
  | _ => split_loop (S (length s)) fl r [] s []
  end.

End Regex.

Import Regex.

(* ================================================================== *)
(** * JavaScript numbers and values *)
(* ================================================================== *)

Set Warnings "-inexact-float".

Module JsNumber.

Local Open Scope float_scope.

(** The number of a length, an index or a counter (exact below 2^53). *)
Definition num (n : nat) : float := of_uint63 (Uint63.of_Z (Z.of_nat n)).

Definition float_of_Z (z : Z) : float :=
  if (z <? 0)%Z then - of_uint63 (Uint63.of_Z (- z)) else of_uint63 (Uint63.of_Z z).

(** [Math.floor(x + 1/2)] computed exactly, for a finite [x] of sign [s],
    mantissa [m] and exponent [e], that is [m * 2^e] up to the sign. *)
Definition round_half_up (s : bool) (m : positive) (e : Z) : Z :=
  let d := (2 ^ (- e))%Z in
  if s then ((d - 2 * Z.pos m) / (2 * d))%Z
  else ((d + 2 * Z.pos m) / (2 * d))%Z.

(** [Math.round]: the nearest integer, a tie going up; zeros, infinities,
    NaN and integers are returned as they are, and a negative argument that
    rounds to zero gives [-0]. *)
Definition Math_round (x : float) : float :=
  match Prim2SF x with
  | S754_finite s m e =>
      if (0 <=? e)%Z then x
      else
        let n := round_half_up s m e in
        if (n =? 0)%Z then (if s then neg_zero else zero) else float_of_Z n
  | _ => x
  end.

(** [Math.max] of two numbers: NaN if either is, and [+0] above [-0]. *)
Definition Math_max (a b : float) : float :=
  if PrimFloat.is_nan a || PrimFloat.is_nan b then nan
  else if a <? b then b
  else if b <? a then a
  else if get_sign a then b else a.

(** [Math.max] and [Math.min] of two counters. *)
Definition Math_max_nat (a b : nat) : nat := Nat.max a b.
Definition Math_min_nat (a b : nat) : nat := Nat.min a b.

(** The integer a number denotes, when it denotes one. *)
Definition integer_value (x : float) : option Z :=
  match Prim2SF x with
  | S754_zero _ => Some 0%Z
  | S754_finite s m e =>
      let v :=
        if (0 <=? e)%Z then Some (Z.pos m * 2 ^ e)%Z
        else if (Z.pos m mod 2 ^ (- e) =? 0)%Z then Some (Z.pos m / 2 ^ (- e))%Z
        else None in
      option_map (fun z => if s then (- z)%Z else z) v
  | _ => None
  end.

Definition show_nat (n : nat) : str :=
  lit (NilEmpty.string_of_uint (Nat.to_uint n)).

(** [String(x)] for the numbers [Math.round] returns: an integer prints its
    decimal digits (below 10^21, which every quotient of a count is), and
    anything else here is NaN or an infinity. *)
Definition show_rounded (x : float) : str :=
  match integer_value x with
  | Some z => if (z <? 0)%Z then lit "-" ++ show_nat (Z.to_nat (- z))
              else show_nat (Z.to_nat z)
  | None => if PrimFloat.is_nan x then lit "NaN"
            else if get_sign x then lit "-Infinity" else lit "Infinity"
  end.

End JsNumber.

Import JsNumber.

Module JsValue.

(** The values a caller can pass where the analyzer expects a string. *)
Inductive jsval :=
| VUndefined
| VNull
| VBool (b : bool)
| VNum (x : float)
| VStr (s : str).

(** ToBoolean *)
Definition truthy (v : jsval) : bool :=
  match v with
  | VUndefined | VNull => false
  | VBool b => b
  | VNum x => negb (PrimFloat.is_zero x || PrimFloat.is_nan x)
  | VStr s => negb (length s =? 0)
  end.

(** What a call can raise: calling a method that the receiver does not
    have is a [TypeError] of the runtime. *)
Inductive jserror :=
| TypeError (msg : string).

Inductive outcome (A : Type) :=
| Ok (a : A)
| Throw (e : jserror).

Arguments Ok {A} a.
Arguments Throw {A} e.

Definition bind {A B : Type} (m : outcome A) (f : A -> outcome B) : outcome B :=
  match m with
  | Ok a => f a
  | Throw e => Throw e
  end.

(** The result of reading a property that may come from [Object.prototype],
    and of arithmetic on it: a counter, or a value that is not a number
    (an inherited function or object, or the string that [+] builds from
    one). *)
Inductive jsnum :=
| JNum (n : nat)
| JOther.

(** [a + b]: addition of numbers; with an operand that is not a number the
    result is a string. *)
Definition jsadd (a b : jsnum) : jsnum :=
  match a, b with
  | JNum x, JNum y => JNum (x + y)
  | _, _ => JOther
  end.

(** ToNumber: the strings and functions behind [JOther] give NaN. *)
Definition toNumber (a : jsnum) : float :=
  match a with
  | JNum n => num n
  | JOther => nan
  end.

(** [a >= n] for a counter [n]: false on NaN. *)
Definition js_ge (a : jsnum) (n : nat) : bool :=
  match a with
  | JNum x => n <=? x
  | JOther => false
  end.

End JsValue.

Import JsValue.

Notation "x <- m ;; k" := (bind m (fun x => k))
  (at level 61, m at next level, right associativity).

(* ================================================================== *)
(** * The analyzer: constants *)
(* ================================================================== *)

(** The difficulty level, ['Easy'], ['Medium'] or ['Hard']. *)
Inductive Level := Easy | Medium | Hard.

Definition Level_eqb (a b : Level) : bool :=
  match a, b with
  | Easy, Easy | Medium, Medium | Hard, Hard => true
  | _, _ => false
  end.

(** [READING_SPEEDS[level.toUpperCase()]] *)
Definition READING_SPEEDS (l : Level) : nat :=
  match l with
  | Easy => 275
  | Medium => 250
  | Hard => 200
  end.

Module THRESHOLDS.
Module SENTENCE_LENGTH.
Definition EASY : float := 14.
Definition MEDIUM : float := 22.
Definition HARD : float := 25.
End SENTENCE_LENGTH.
Module COMPLEX_RATIO.
Definition EASY : float := 0.08.
Definition HARD : float := 0.15.
End COMPLEX_RATIO.
Module PARAGRAPH_DENSITY.
Definition DENSE : nat := 100.
Definition MIN_SENTENCES : nat := 4.
End PARAGRAPH_DENSITY.
Module CLAUSE_DENSITY.
Definition COMPLEX : nat := 4.
End CLAUSE_DENSITY.
End THRESHOLDS.

(** A label with its colour class, and the tag the classifiers add
    ([quality] or [category]). *)
Record Label := { label : str; colorClass : str; tag : str }.

Module LABELS.
Module SENTENCE.
Definition TOO_SHORT := (lit "Too Short", lit "quality-warning").
Definition SHORT := (lit "Short", lit "quality-good").
Definition OPTIMAL := (lit "Optimal", lit "quality-optimal").
Definition LONG := (lit "Long", lit "quality-warning").
Definition TOO_LONG := (lit "Too Long", lit "quality-bad").
End SENTENCE.
Module WORD_COUNT.
Definition QUICK := (lit "Quick Read", lit "length-quick").
Definition SHORT := (lit "Short", lit "length-short").
Definition MEDIUM := (lit "Medium", lit "length-medium").
Definition LONG := (lit "Long Read", lit "length-long").
Definition DEEP := (lit "In-Depth", lit "length-deep").
End WORD_COUNT.
End LABELS.

(** [{ ...entry, quality: t }] *)
Definition tagged (entry : str * str) (t : string) : Label :=
  {| label := fst entry; colorClass := snd entry; tag := lit t |}.

(** [SYLLABLE_OVERRIDES]: the own properties of the object literal. *)
Definition SYLLABLE_OVERRIDES : list (str * nat) :=
  map (fun p => (lit (fst p), snd p))
    [ ("business", 2); ("every", 2); ("different", 2); ("interest", 2);
      ("evening", 2); ("family", 2); ("several", 2); ("general", 2);
      ("natural", 2); ("actually", 3); ("chocolate", 2); ("favorite", 2);
      ("vegetable", 3); ("comfortable", 3); ("reasonable", 3);
      ("important", 3); ("beautiful", 3); ("possible", 3); ("terrible", 3);
      ("difficult", 3); ("wonderful", 3); ("carefully", 3); ("probably", 3);
      ("especially", 4); ("interesting", 4); ("unfortunately", 5) ]%string.

(** The property names every object literal inherits from
    [Object.prototype]; their values are functions, and for [__proto__] the
    prototype object. *)
Definition Object_prototype_keys : list str :=
  map lit
    [ "constructor"; "hasOwnProperty"; "isPrototypeOf"; "propertyIsEnumerable";
      "toLocaleString"; "toString"; "valueOf"; "__proto__";
      "__defineGetter__"; "__defineSetter__"; "__lookupGetter__";
      "__lookupSetter__" ]%string.

Definition str_mem (s : str) (l : list str) : bool := existsb (str_eqb s) l.

(** [obj[key]] on an object literal with number-valued own properties:
    the own property, else the inherited one, else [undefined]. *)
Definition get_property (obj : list (str * nat)) (key : str) : option jsnum :=
  match find (fun p => str_eqb (fst p) key) obj with
  | Some p => Some (JNum (snd p))
  | None => if str_mem key Object_prototype_keys then Some JOther else None
  end.

(** [new Set(items)]: the distinct items in order of first insertion. *)
Definition new_Set (items : list str) : list str :=
  fold_left (fun acc x => if str_mem x acc then acc else acc ++ [x]) items [].

Definition COMMON_POLYSYLLABIC : list str :=
  new_Set (map lit
    [ "everyone"; "everything"; "everywhere"; "however"; "another";
      "together"; "already"; "although"; "without"; "because";
      "before"; "between"; "during"; "often"; "sometimes";
      "usually"; "always"; "really"; "actually"; "probably";
      "certainly"; "definitely"; "absolutely"; "completely"; "exactly";
      "important"; "different"; "beautiful"; "wonderful"; "interesting";
      "government"; "understand"; "information"; "technology"; "education";
      "community"; "experience"; "opportunity"; "relationship"; "remember";
      "something"; "anything"; "nothing"; "everything"; "somebody" ]%string).

Definition ABBREVIATIONS : list str :=
  new_Set (map lit
    [ "mr"; "mrs"; "ms"; "dr"; "prof"; "sr"; "jr"; "vs"; "etc"; "inc"; "ltd"; "corp";
      "eg"; "ie"; "al"; "vol"; "no"; "pp"; "ed"; "est"; "approx"; "dept"; "govt";
      "jan"; "feb"; "mar"; "apr"; "may"; "jun"; "jul"; "aug"; "sep"; "oct"; "nov"; "dec";
      "mon"; "tue"; "wed"; "thu"; "fri"; "sat"; "sun";
      "st"; "nd"; "rd"; "th"; "ave"; "blvd"; "ct"; "ln"; "ft"; "lb"; "oz";
      "u"; "s"; "a"; "b"; "c"; "d"; "e"; "f"; "g"; "h"; "i"; "j"; "k"; "l"; "m";
      "n"; "o"; "p"; "q"; "r"; "t"; "v"; "w"; "x"; "y"; "z";
      "ph"; "ba"; "ma"; "bs"; "ms"; "mba"; "ceo"; "cto"; "cfo" ]%string).

(* ================================================================== *)
(** * The analyzer: syllables *)
(* ================================================================== *)

(** The closure [isVowel(char, index, word)] of [countSyllables]. *)
Definition isVowel (char : ascii) (index : nat) : bool :=
  if includes [char] (lit "aeiou") then true
  else if char_eqb char "y" && (0 <? index) then true
  else false.

(** The loop over the characters: [syllables] and [prevVowel] are the
    loop's variables, [i] its index. *)
Fixpoint countVowelGroups (word : str) (i : nat) (syllables : nat)
    (prevVowel : bool) : nat :=
  match word with
  | [] => syllables
  | ch :: rest =>
      let currVowel := isVowel ch i in
      let syllables := if currVowel && negb prevVowel then S syllables else syllables in
      countVowelGroups rest (S i) syllables currVowel
  end.

(** [str.includes(word[i])] for an index that may be out of range:
    [undefined] is looked up as the text "undefined". *)
Definition includes_charAt (word : str) (i : nat) (set : str) : bool :=
  match charAt word i with
  | Some ch => includes [ch] set
  | None => includes (lit "undefined") set
  end.

(** The three corrections of [countSyllables], each [Math.max(1, syllables - 1)]
    under its condition: a silent final e, *)
Definition dropSilentE (word : str) (syllables : nat) : nat :=
  if endsWith (lit "e") word && negb (endsWith (lit "le") word)
     && negb (endsWith (lit "ee") word) && negb (endsWith (lit "ie") word)
  then Math_max_nat 1 (syllables - 1) else syllables.

(** an ending -ed not after t or d, *)
Definition dropSilentEd (word : str) (syllables : nat) : nat :=
  if endsWith (lit "ed") word && (3 <? length word) then
    if negb (includes_charAt word (length word - 3) (lit "td"))
    then Math_max_nat 1 (syllables - 1) else syllables
  else syllables.

(** and an ending -es not after s, x, z or h. *)
Definition dropSilentEs (word : str) (syllables : nat) : nat :=
  if endsWith (lit "es") word && (3 <? length word) then
    if negb (includes_charAt word (length word - 3) (lit "sxzh"))
       && negb (endsWith (lit "ches") word) && negb (endsWith (lit "shes") word)
    then Math_max_nat 1 (syllables - 1) else syllables
  else syllables.

(** The part of [countSyllables] after the override and hyphen cases. *)
Definition vowelPatternSyllables (word : str) : nat :=
  let syllables := countVowelGroups word 0 0 false in
  let syllables := dropSilentE word syllables in
  let syllables := dropSilentEd word syllables in
  let syllables := dropSilentEs word syllables in
  Math_max_nat 1 syllables.

(** The body of [countSyllables(word)], with [recur] for the method's call
    of itself on the parts of a hyphenated word. *)
Definition countSyllables_body (recur : str -> jsnum) (word : str) : jsnum :=
  if length word =? 0 then JNum 0
  else
    let word := trim (toLowerCase word) in
    if length word <=? 2 then JNum 1
    else
      match get_property SYLLABLE_OVERRIDES word with
      | Some JOther => JOther
      | Some (JNum (S n)) => JNum (S n)
      | _ =>
          if includes (lit "-") word then
            fold_left (fun sum part => jsadd sum (recur part))
                      (split (lit "-") word) (JNum 0)
          else JNum (vowelPatternSyllables word)
      end.

(** [countSyllables] to a given depth of nested calls.  The parts of a
    hyphenated word hold no hyphen, so the calls nest once and depth 1 is
    the method: [countSyllables_unfold] proves the method's own equation. *)
Fixpoint countSyllables_at (depth : nat) (word : str) : jsnum :=
  countSyllables_body
    (match depth with
     | 0 => fun _ => JNum 0
     | S depth' => countSyllables_at depth'
     end) word.

Definition countSyllables (word : str) : jsnum := countSyllables_at 1 word.

(* ================================================================== *)
(** * The analyzer: segmentation *)
(* ================================================================== *)

(** The patterns of [extractSentences] and [extractWords], each next to its
    source text. *)
Module Patterns.

Definition upperAZ : regex := RClass false [CRange "A" "Z"].

  (** [\s+] *)
Definition whitespace : regex := rplus rspace.
  (** [\u00A0] *)
Definition nbsp : regex := RChar (ascii_of_N 160).
  (** [https?:\/\/[^\s]+] *)
Definition url : regex :=
    rseq [rstr (lit "http"); ropt (RChar "s"); rstr (lit "://");
          rplus (RClass true [CSpace])].
  (** [[\w.-]+@[\w.-]+\.\w+] *)
Definition email : regex :=
    rseq [rplus (RClass false [CWord; CChar "."; CChar "-"]); RChar "@";
          rplus (RClass false [CWord; CChar "."; CChar "-"]); RChar ".";
          rplus rword].
  (** [(\d)\.(\d)] *)
Definition decimal : regex :=
    rseq [RGroup 1 rdigit; RChar "."; RGroup 2 rdigit].
  (** [\$[\d,.]+] *)
Definition currency : regex :=
    rseq [RChar "$"; rplus (RClass false [CDigit; CChar ","; CChar "."])].
  (** [\.] *)
Definition dot : regex := RChar ".".
  (** [\.{2,}] *)
Definition ellipsis : regex := RQuant 2 None (RChar ".").
  (** [\b(mr|mrs|...)\.(?=\s|$)]: the alternatives are the abbreviations in
      the order of the set, which the source joins with a bar; they are
      letters only, so each is a literal of the pattern *)
Definition abbr (abbreviations : list str) : regex :=
    rseq [RWordB; RGroup 1 (ralt (map rstr abbreviations)); RChar ".";
          RLookahead (RAlt rspace REol)].
  (** [\b([A-Z])\.\s(?=[A-Z]\.?\s?)] *)
Definition initials : regex :=
    rseq [RWordB; RGroup 1 upperAZ; RChar "."; rspace;
          RLookahead (rseq [upperAZ; ropt (RChar "."); ropt rspace])].
  (** [^(\d+)\.\s] *)
Definition numbered_at_line_start : regex :=
    rseq [RBol; RGroup 1 (rplus rdigit); RChar "."; rspace].
  (** [\s(\d+)\.\s] *)
Definition numbered_inside : regex :=
    rseq [rspace; RGroup 1 (rplus rdigit); RChar "."; rspace].
  (** [([.!?])\s+(?=[A-Z'([{]|$)], where the class also holds the double
      quote, character 34 *)
Definition sentence_end : regex :=
    rseq [RGroup 1 (rset (lit ".!?")); rplus rspace;
          RLookahead
            (RAlt (RClass false [CRange "A" "Z"; CChar "034"; CChar "'";
                                 CChar "("; CChar "["; CChar "{"])
                  REol)].
  (** [([.!?])$] *)
Definition text_end : regex := rseq [RGroup 1 (rset (lit ".!?")); REol].
  (** [[a-zA-Z]] *)
Definition letter : regex := RClass false [CRange "a" "z"; CRange "A" "Z"].

  (** [[<>{}[\]]] *)
Definition brackets : regex := rset (lit "<>{}[]").
  (** [\b\d+([.,]\d+)*\s*(%|px|em|rem|pt|cm|mm|in|kg|lb|oz|km|mi|mph|fps)?\b] *)
Definition number_with_unit : regex :=
    rseq [RWordB; rplus rdigit;
          rstar (RGroup 1 (rseq [rset (lit ".,"); rplus rdigit]));
          rstar rspace;
          ropt (RGroup 2 (ralt (map (fun u => rstr (lit u))
            [ "%"; "px"; "em"; "rem"; "pt"; "cm"; "mm"; "in"; "kg"; "lb";
              "oz"; "km"; "mi"; "mph"; "fps" ]%string)));
          RWordB].
  (** [[^\w\s'-]] *)
Definition not_word_char : regex :=
    RClass true [CWord; CSpace; CChar "'"; CChar "-"].
  (** [^[a-z]] *)
Definition starts_with_letter : regex := rseq [RBol; RClass false [CRange "a" "z"]].
  (** [[a-z]] *)
Definition lower_letter : regex := RClass false [CRange "a" "z"].
  (** [^[-']+$] *)
Definition only_marks : regex :=
    rseq [RBol; rplus (rset (lit "-'")); REol].

  (** [[;:]] *)
Definition strong_punctuation : regex := rset (lit ";:").
  (** [(?:^|[,;]\s+)\bWORD\b] *)
Definition connective (word : str) : regex :=
    rseq [RAlt RBol (rseq [rset (lit ",;"); rplus rspace]);
          RWordB; rstr word; RWordB].
  (** [\b(?<!so\s|such\s)that\b] *)
Definition that : regex :=
    rseq [RWordB;
          RNegLookbehind (RAlt (rseq [rstr (lit "so"); rspace])
                               (rseq [rstr (lit "such"); rspace]));
          rstr (lit "that"); RWordB].

End Patterns.

(** The [map] callback of [extractSentences]: the markers become text
    again. *)
Definition restoreMarkers (s : str) : str :=
  let s := replace_with plain (rstr (lit "<URL>")) (lit "[URL]") s in
  let s := replace_with plain (rstr (lit "<EMAIL>")) (lit "[EMAIL]") s in
  let s := replace_with plain (rstr (lit "<ABBR>")) (lit ".") s in
  let s := replace_with plain (rstr (lit "<DEC>")) (lit ".") s in
  let s := replace_with plain (rstr (lit "<ELLIP>")) (lit "...") s in
  let s := replace_with plain (rstr (lit "<INIT>")) (lit ".") s in
  let s := replace_with plain (rstr (lit "<NUM>")) (lit ".") s in
  trim s.

(** The [filter] callback of [extractSentences]. *)
Definition isSentence (s : str) : bool :=
  let words := filter (fun w => test plain Patterns.letter w)
                      (split_re plain Patterns.whitespace s) in
  (5 <? length s) && (3 <=? length words).

(** The first half of [extractSentences]: [normalized] after the whitespace
    is normalized and every protection is applied, before any split. *)
Definition protectText (text : str) : str :=
  let normalized :=
    trim (replace_with plain Patterns.nbsp (lit " ")
            (replace_with plain Patterns.whitespace (lit " ") text)) in
  let normalized := replace_with plain Patterns.url (lit "<URL>") normalized in
  let normalized := replace_with plain Patterns.email (lit "<EMAIL>") normalized in
  let normalized :=
    replace plain Patterns.decimal
      (fun _ cs => get_cap 1 cs ++ lit "<DEC>" ++ get_cap 2 cs) normalized in
  let normalized :=
    replace plain Patterns.currency
      (fun m _ => replace_with plain Patterns.dot (lit "<DEC>") m) normalized in
  let normalized := replace_with plain Patterns.ellipsis (lit "<ELLIP>") normalized in
  let abbrRegex := Patterns.abbr ABBREVIATIONS in
  let normalized :=
    replace flag_i abbrRegex (fun _ cs => get_cap 1 cs ++ lit "<ABBR>") normalized in
  let normalized :=
    replace plain Patterns.initials
      (fun _ cs => get_cap 1 cs ++ lit "<INIT> ") normalized in
  let normalized :=
    replace flag_m Patterns.numbered_at_line_start
      (fun _ cs => get_cap 1 cs ++ lit "<NUM> ") normalized in
  let normalized :=
    replace plain Patterns.numbered_inside
      (fun _ cs => lit " " ++ get_cap 1 cs ++ lit "<NUM> ") normalized in
  normalized.

(** The split of the protected text at the sentence ends. *)
Definition splitSentences (normalized : str) : list str :=
  split (lit "<SPLIT>")
    (replace plain Patterns.text_end (fun _ cs => get_cap 1 cs ++ lit "<SPLIT>")
       (replace plain Patterns.sentence_end
          (fun _ cs => get_cap 1 cs ++ lit "<SPLIT>") normalized)).

(** [extractSentences(text)] for a string [text]. *)
Definition extractSentences (text : str) : list str :=
  if (length text =? 0) || (length (trim text) =? 0) then []
  else
    let normalized := protectText text in
    let sentences := splitSentences normalized in
    filter isSentence (map restoreMarkers sentences).

(** The [flatMap] callback of [extractWords]. *)
Definition splitCompound (word : str) : list str :=
  let word := trim (toLowerCase word) in
  if includes (lit "-") word && negb (includes (lit "'") word)
  then filter (fun w => 0 <? length w) (split (lit "-") word)
  else [word].

(** The [filter] callback of [extractWords]. *)
Definition isWord (w : str) : bool :=
  if length w <? 2 then false
  else if negb (test flag_i Patterns.starts_with_letter w) then false
  else
    let letterCount := match_count flag_i Patterns.lower_letter w in
    if (num letterCount <? num (length w) * 0.5)%float then false
    else if test plain Patterns.only_marks w then false
    else true.

(** [extractWords(text)] for a string [text]. *)
Definition extractWords (text : str) : list str :=
  if length text =? 0 then []
  else
    let cleaned := replace_with plain Patterns.url [] text in
    let cleaned := replace_with plain Patterns.email [] cleaned in
    let cleaned := replace_with plain Patterns.brackets (lit " ") cleaned in
    let cleaned := replace_with flag_i Patterns.number_with_unit [] cleaned in
    let cleaned := replace_with plain Patterns.not_word_char (lit " ") cleaned in
    let cleaned := trim (replace_with plain Patterns.whitespace (lit " ") cleaned) in
    filter isWord (flat_map splitCompound (split_re plain Patterns.whitespace cleaned)).

(* ================================================================== *)
(** * The analyzer: metrics and classification *)
(* ================================================================== *)

Module ComplexWords.
Record t := { words : list str; count : nat; ratio : float }.
End ComplexWords.

(** The [filter] callback of [identifyComplexWords]. *)
Definition isComplexWord (word : str) : bool :=
  if length word <? 6 then false
  else if str_mem word COMMON_POLYSYLLABIC then false
  else
    let syllables := countSyllables word in
    js_ge syllables 3.

(** [identifyComplexWords(words)] *)
Definition identifyComplexWords (words : list str) : ComplexWords.t :=
  let complexWords := filter isComplexWord words in
  let uniqueComplexWords := new_Set complexWords in
  {| ComplexWords.words := uniqueComplexWords;
     ComplexWords.count := length complexWords;
     ComplexWords.ratio :=
       if 0 <? length words
       then (num (length complexWords) / num (length words))%float
       else 0%float |}.

(** [calculateFleschKincaid(totalWords, totalSentences, totalSyllables)],
    on numbers. *)
Definition calculateFleschKincaid (totalWords totalSentences totalSyllables : float)
    : float :=
  if (totalSentences =? 0)%float || (totalWords =? 0)%float then 0%float
  else
    let avgWordsPerSentence := (totalWords / totalSentences)%float in
    let avgSyllablesPerWord := (totalSyllables / totalWords)%float in
    let gradeLevel :=
      (0.39 * avgWordsPerSentence + 11.8 * avgSyllablesPerWord - 15.59)%float in
    Math_max 0 (Math_round (gradeLevel * 10) / 10)%float.

Module ReadingTime.
Record t := { minutes : float; wpm : nat; formatted : str }.
End ReadingTime.

(** [calculateReadingTime(wordCount, level)]; [READING_SPEEDS] has an entry
    for each level, so the fallback to the medium speed is never taken. *)
Definition calculateReadingTime (wordCount : nat) (level : Level) : ReadingTime.t :=
  if wordCount =? 0 then
    {| ReadingTime.minutes := 0; ReadingTime.formatted := lit "< 1 min";
       ReadingTime.wpm := 0 |}
  else
    let baseWPM := READING_SPEEDS level in
    let exactMinutes := (num wordCount / num baseWPM)%float in
    let minutes := Math_round exactMinutes in
    let formatted :=
      if (exactMinutes <? 0.5)%float then lit "< 1 min"
      else if (minutes =? 1)%float then lit "1 min"
      else show_rounded minutes ++ lit " mins" in
    {| ReadingTime.minutes := minutes; ReadingTime.wpm := baseWPM;
       ReadingTime.formatted := formatted |}.

(** [classifySentenceQuality(avgLength)] *)
Definition classifySentenceQuality (avgLength : float) : Label :=
  if (avgLength <? 8)%float then tagged LABELS.SENTENCE.TOO_SHORT "short"
  else if (avgLength <=? 12)%float then tagged LABELS.SENTENCE.SHORT "short-ok"
  else if (avgLength <=? 18)%float then tagged LABELS.SENTENCE.OPTIMAL "optimal"
  else if (avgLength <=? 25)%float then tagged LABELS.SENTENCE.LONG "long"
  else tagged LABELS.SENTENCE.TOO_LONG "too-long".

(** [classifyWordCount(wordCount)] *)
Definition classifyWordCount (wordCount : nat) : Label :=
  if wordCount <? 300 then tagged LABELS.WORD_COUNT.QUICK "quick"
  else if wordCount <=? 700 then tagged LABELS.WORD_COUNT.SHORT "short"
  else if wordCount <=? 1400 then tagged LABELS.WORD_COUNT.MEDIUM "medium"
  else if wordCount <=? 2500 then tagged LABELS.WORD_COUNT.LONG "long"
  else tagged LABELS.WORD_COUNT.DEEP "deep".

(** [classifyReadability(avgSentenceLength, complexRatio, fkGrade, wordCount)];
    [fkGrade] is [None] for [null]. *)
Definition classifyReadability (avgSentenceLength complexRatio : float)
    (fkGrade : option float) (wordCount : nat) : Level :=
  if wordCount <? 100 then Medium
  else
    match fkGrade with
    | Some fkGrade =>
        let level :=
          if (fkGrade <=? 6)%float then Easy
          else if (fkGrade <=? 12)%float then Medium
          else Hard in
        if (wordCount <? 300) && Level_eqb level Hard && (fkGrade <? 15)%float
        then Medium
        else level
    | None =>
        let score := 0 in
        let score :=
          if (avgSentenceLength <=? THRESHOLDS.SENTENCE_LENGTH.EASY)%float
          then score + 0
          else if (avgSentenceLength <=? THRESHOLDS.SENTENCE_LENGTH.MEDIUM)%float
          then score + 1
          else score + 2 in
        let score :=
          if (complexRatio <=? THRESHOLDS.COMPLEX_RATIO.EASY)%float
          then score + 0
          else if (complexRatio <=? THRESHOLDS.COMPLEX_RATIO.HARD)%float
          then score + 1
          else score + 2 in
        let result :=
          if score <=? 1 then Easy
          else if score <=? 2 then Medium
          else Hard in
        if (wordCount <? 300) && Level_eqb result Hard then Medium else result
    end.

(* ================================================================== *)
(** * The analyzer: issues *)
(* ================================================================== *)

Definition connectingWords : list str :=
  map lit
    [ "however"; "therefore"; "moreover"; "furthermore"; "nevertheless";
      "because"; "since"; "although"; "though"; "while"; "whereas"; "unless"; "until";
      "which"; "who"; "whom"; "whose"; "where"; "when"; "whether";
      "if"; "provided"; "assuming" ]%string.

(** [countClauses(sentence)]; [clauseCount] is the local variable. *)
Definition countClauses (sentence : str) : nat :=
  let clauseCount := 1 in
  let strongPunctuation := match_count plain Patterns.strong_punctuation sentence in
  let clauseCount :=
    if 0 <? strongPunctuation then clauseCount + strongPunctuation
    else clauseCount in
  let lowerSentence := toLowerCase sentence in
  let clauseCount :=
    fold_left
      (fun clauseCount word =>
         clauseCount + match_count flag_i (Patterns.connective word) lowerSentence)
      connectingWords clauseCount in
  let thatMatches := match_count flag_i Patterns.that lowerSentence in
  let clauseCount :=
    if 0 <? thatMatches then clauseCount + Math_min_nat thatMatches 3
    else clauseCount in
  clauseCount.

(** [array.forEach((x, i) => ...)] with the variables the callback assigns
    threaded as a state [S]; [i] counts from [start]. *)
Fixpoint forEach_from {A S : Type} (start : nat) (f : S -> A -> nat -> S)
    (l : list A) (st : S) : S :=
  match l with
  | [] => st
  | x :: l' => forEach_from (Datatypes.S start) f l' (f st x start)
  end.

Definition forEach {A S : Type} (f : S -> A -> nat -> S) (l : list A) (st : S) : S :=
  forEach_from 0 f l st.

(** [array.map((x, i) => ...)] *)
Fixpoint map_from {A B : Type} (start : nat) (f : A -> nat -> B) (l : list A)
    : list B :=
  match l with
  | [] => []
  | x :: l' => f x start :: map_from (S start) f l'
  end.

Definition mapi {A B : Type} (f : A -> nat -> B) (l : list A) : list B :=
  map_from 0 f l.

Module ComplexSentence.
Record t := {
    text : str;
    clauseCount : nat;
    wordCount : nat;
    index : nat;
    paragraphIndex : nat;
    isComplex : bool
  }.
End ComplexSentence.

(** The state of the two loops of [identifyComplexSentences]: the array
    [complexSentences] and the counter [globalSentenceIndex]. *)
Definition scan := (list ComplexSentence.t * nat)%type.

(** The callback of the inner [forEach]. *)
Definition visitSentence (pIndex : nat) (st : scan) (sentence : str) (_ : nat)
    : scan :=
  let '(complexSentences, globalSentenceIndex) := st in
  let clauseCount := countClauses sentence in
  let words := extractWords sentence in
  let complexSentences :=
    if (3 <=? clauseCount) && (20 <=? length words) then
      complexSentences ++
        [ {| ComplexSentence.text := sentence;
             ComplexSentence.clauseCount := clauseCount;
             ComplexSentence.wordCount := length words;
             ComplexSentence.index := globalSentenceIndex;
             ComplexSentence.paragraphIndex := pIndex;
             ComplexSentence.isComplex := true |} ]
    else complexSentences in
  (complexSentences, S globalSentenceIndex).

(** The callback of the outer [forEach]. *)
Definition visitParagraph (st : scan) (paragraphText : str) (pIndex : nat) : scan :=
  let pSentences := extractSentences paragraphText in
  forEach (visitSentence pIndex) pSentences st.

(** [identifyComplexSentences(paragraphs)]; the local [threshold] is read
    from the table and not used. *)
Definition identifyComplexSentences (paragraphs : list str) : list ComplexSentence.t :=
  let threshold := THRESHOLDS.CLAUSE_DENSITY.COMPLEX in
  fst (forEach visitParagraph paragraphs ([], 0)).

Module DenseParagraph.
Record t := {
    text : str;
    index : nat;
    wordCount : nat;
    sentenceCount : nat;
    avgSentenceLength : float;
    isDense : bool
  }.
End DenseParagraph.

(** [words.length / sentences.length], or 0 without sentences. *)
Definition averageLength (words sentences : nat) : float :=
  if 0 <? sentences then (num words / num sentences)%float else 0%float.

(** The [map] callback of [identifyDenseParagraphs]. *)
Definition describeParagraph (para : str) (index : nat) : DenseParagraph.t :=
  let words := extractWords para in
  let sentences := extractSentences para in
  let avgSentenceLength := averageLength (length words) (length sentences) in
  let isDenseByLength :=
    (THRESHOLDS.PARAGRAPH_DENSITY.DENSE <=? length words)
    && (THRESHOLDS.PARAGRAPH_DENSITY.MIN_SENTENCES <=? length sentences) in
  let isVeryLong := 150 <=? length words in
  let isComplexAndLong := (80 <=? length words) && (25 <=? avgSentenceLength)%float in
  {| DenseParagraph.text := para;
     DenseParagraph.index := index;
     DenseParagraph.wordCount := length words;
     DenseParagraph.sentenceCount := length sentences;
     DenseParagraph.avgSentenceLength :=
       (Math_round (avgSentenceLength * 10) / 10)%float;
     DenseParagraph.isDense := isDenseByLength || isVeryLong || isComplexAndLong |}.

(** [identifyDenseParagraphs(paragraphs)] *)
Definition identifyDenseParagraphs (paragraphs : list str) : list DenseParagraph.t :=
  filter DenseParagraph.isDense (mapi describeParagraph paragraphs).

(* ================================================================== *)
(** * The analyzer: the entry point *)
(* ================================================================== *)

(** [this.extractSentences(text)] for any argument: a falsy one leaves by
    the first guard, a string is segmented, and anything else has no
    [trim] to call. *)
Definition extractSentences_any (text : jsval) : outcome (list str) :=
  if negb (truthy text) then Ok []
  else
    match text with
    | VStr s => Ok (extractSentences s)
    | _ => Throw (TypeError "text.trim is not a function")
    end.

(** [this.extractWords(text)] for any argument, in the same way. *)
Definition extractWords_any (text : jsval) : outcome (list str) :=
  if negb (truthy text) then Ok []
  else
    match text with
    | VStr s => Ok (extractWords s)
    | _ => Throw (TypeError "text.replace is not a function")
    end.

Module Issues.
Record t := {
    complexSentences : list ComplexSentence.t;
    denseParagraphs : list DenseParagraph.t
  }.
End Issues.

Module AnalysisResult.
Record t := {
    level : Level;
    grade : float;
    readingTime : ReadingTime.t;
    wordCount : nat;
    wordCountCategory : Label;
    sentenceCount : nat;
    avgSentenceLength : float;
    sentenceQuality : Label;
    isLowConfidence : bool;
    issues : Issues.t;
    issueCount : nat
  }.
End AnalysisResult.

(** [analyzeText(text, paragraphs = [])]: [paragraphs] is [None] when the
    caller leaves it out.  A sum that met a value that is not a number
    reaches the grade formula as NaN. *)
Definition analyzeText (text : jsval) (paragraphs : option (list str))
    : outcome AnalysisResult.t :=
  let paragraphs := match paragraphs with Some ps => ps | None => [] end in
  sentences <- extractSentences_any text ;;
  words <- extractWords_any text ;;
  let totalSyllables :=
    fold_left (fun sum word => jsadd sum (countSyllables word)) words (JNum 0) in
  let complexWordData := identifyComplexWords words in
  let avgSentenceLength := averageLength (length words) (length sentences) in
  let fkGrade :=
    calculateFleschKincaid (num (length words)) (num (length sentences))
                           (toNumber totalSyllables) in
  let level :=
    classifyReadability avgSentenceLength (ComplexWords.ratio complexWordData)
                        (Some fkGrade) (length words) in
  let readingTime := calculateReadingTime (length words) level in
  let sentenceQuality := classifySentenceQuality avgSentenceLength in
  let wordCountCategory := classifyWordCount (length words) in
  let complexSentences := identifyComplexSentences paragraphs in
  let denseParagraphs := identifyDenseParagraphs paragraphs in
  Ok {| AnalysisResult.level := level;
        AnalysisResult.grade := fkGrade;
        AnalysisResult.readingTime := readingTime;
        AnalysisResult.wordCount := length words;
        AnalysisResult.wordCountCategory := wordCountCategory;
        AnalysisResult.sentenceCount := length sentences;
        AnalysisResult.avgSentenceLength :=
          (Math_round (avgSentenceLength * 10) / 10)%float;
        AnalysisResult.sentenceQuality := sentenceQuality;
        AnalysisResult.isLowConfidence := length words <? 100;
        AnalysisResult.issues :=
          {| Issues.complexSentences := complexSentences;
             Issues.denseParagraphs := denseParagraphs |};
        AnalysisResult.issueCount :=
          length complexSentences + length denseParagraphs |}.

(* ================================================================== *)
(** * Properties stated by the specification *)
(* ================================================================== *)

(** The predicates below put the specification's wording next to the code;
    the theorems relate the two. *)

(** "Flagged when any of: (word count >= 100 and sentence count >= 4), or
    word count >= 150 regardless of sentence count, or (word count >= 80
    and average sentence length >= 25)". *)
Definition denseTriggers (wordCount sentenceCount : nat) : Prop :=
  (100 <= wordCount /\ 4 <= sentenceCount)
  \/ 150 <= wordCount
  \/ (80 <= wordCount
      /\ (25 <=? averageLength wordCount sentenceCount)%float = true).

(** The average trigger read in whole numbers: some sentence, and at
    least 25 words for each. *)
Definition averageAtLeast25 (wordCount sentenceCount : nat) : bool :=
  (0 <? sentenceCount) && (25 * sentenceCount <=? wordCount).

(** Whether the float test and the whole-number reading agree for all
    counts below the bounds. *)
Definition averageTestAgrees (wordBound sentenceBound : nat) : bool :=
  forallb
    (fun wordCount =>
       forallb
         (fun sentenceCount =>
            Bool.eqb (25 <=? averageLength wordCount sentenceCount)%float
                     (averageAtLeast25 wordCount sentenceCount))
         (seq 0 sentenceBound))
    (seq 0 wordBound).

(** "Flagged when clause count >= 3 and word count >= 20". *)
Definition complexTriggers (sentence : str) : Prop :=
  3 <= countClauses sentence /\ 20 <= length (extractWords sentence).

(** The number of sentences in the paragraphs before position [pIndex]. *)
Definition sentencesBefore (paragraphs : list str) (pIndex : nat) : nat :=
  length (flat_map extractSentences (firstn pIndex paragraphs)).

(** The issue [identifyComplexSentences] records for a sentence. *)
Definition complexIssue (sentence : str) (globalIndex pIndex : nat)
    : ComplexSentence.t :=
  {| ComplexSentence.text := sentence;
     ComplexSentence.clauseCount := countClauses sentence;
     ComplexSentence.wordCount := length (extractWords sentence);
     ComplexSentence.index := globalIndex;
     ComplexSentence.paragraphIndex := pIndex;
     ComplexSentence.isComplex := true |}.

(** The grade formula, the rounding to one decimal and the floor at zero
    of the specification, in the arithmetic of the code. *)
Definition gradeFormula (words sentences syllables : float) : float :=
  (0.39 * (words / sentences) + 11.8 * (syllables / words) - 15.59)%float.

Definition roundToOneDecimal (x : float) : float :=
  (Math_round (x * 10) / 10)%float.

Definition flooredAtZero (x : float) : float := Math_max 0 x.


(** A word whose lookup in [SYLLABLE_OVERRIDES] stays among the own
    properties or finds nothing. *)
Definition plainLookup (word : str) : Prop :=
  str_mem (trim (toLowerCase word)) Object_prototype_keys = false.

(** Sample texts used to exercise the theorems. *)
Module Samples.
Definition fox : str := lit "The quick brown fox jumps over the lazy dog again. ".
  (** A paragraph of 200 words in 20 sentences. *)
Definition longParagraph : str := concat (repeat fox 20).
Definition shortParagraph : str := lit "Short one here.".
Definition paragraphs : list str := [shortParagraph; longParagraph].
Definition doctor : str := lit "Dr. Smith went to Washington, D.C. on Monday.".
  (** Two clauses, 25 words. *)
Definition twoClauses : str :=
    lit "Because the weather was nice we walked along the river and talked about many things until the sun went down behind the hills of town.".
  (** Four clauses, 15 words. *)
Definition fourClauses : str :=
    lit "However, we stayed home because it rained, which was sad, although we played games daily.".
  (** Three clauses, 22 words. *)
Definition threeClauses : str :=
    lit "When the rain stopped, we went outside to the garden, because the children wanted to play with the new red ball again.".
End Samples.

(* ------------------------------------------------------------------ *)
(** ** Definitions used by the further properties *)
(* ------------------------------------------------------------------ *)

Section RepeatClass.

Variable R : Type.
Variable p : ascii -> bool.
Variable k : mstate -> option R.

(** The quantifier loop of [rmatch] for a character class read forwards:
    the nested loop of the matcher with its body [step]. *)
Fixpoint repeat_class (fuel min : nat) (max : option nat) (x : mstate)
    {struct fuel} : option R :=
  match fuel with
  | 0 => None
  | S fuel' =>
      if max_is_zero max then k x
      else
        let d := fun y : mstate =>
          if (min =? 0) && (pos y =? pos x) then None
          else repeat_class fuel' (Nat.pred min) (option_map Nat.pred max) y in
        let xr := clear_caps [] x in
        if min =? 0 then
          match step true p xr d with
          | Some z => Some z
          | None => k x
          end
        else step true p xr d
  end.

End RepeatClass.

(** Check a property of all positive numbers of at most [bits + 1] binary
    digits. *)
Fixpoint all_pos (bits : nat) (f : positive -> bool) : bool :=
  f 1%positive
  && match bits with
     | 0 => true
     | S b => all_pos b (fun p => f (xO p)) && all_pos b (fun p => f (xI p))
     end.

(** A character that [trim] keeps and [\s] does not match. *)
Definition nonSpace (c : ascii) : Prop := isSpace c = false.

(** The reading time in whole minutes: the quotient of the word count by
    the speed, rounded to the nearest integer with a half going up. *)
Definition wholeMinutes (wordCount speed : nat) : nat :=
  (2 * wordCount + speed) / (2 * speed).

(** Whether the floating-point steps of [calculateReadingTime] on a word
    count [p] give the whole minutes, the two tests on them and their
    decimal digits. *)
Definition readingTimeAgrees (level : Level) (p : positive) : bool :=
  let speed := Z.of_nat (READING_SPEEDS level) in
  let m := ((2 * Z.pos p + speed) / (2 * speed))%Z in
  let exactMinutes :=
    (of_uint63 (Uint63.of_Z (Z.pos p)) / num (READING_SPEEDS level))%float in
  let minutes := Math_round exactMinutes in
  PrimFloat.Leibniz.eqb minutes (of_uint63 (Uint63.of_Z m))
  && Bool.eqb (exactMinutes <? 0.5)%float (m =? 0)%Z
  && Bool.eqb (minutes =? 1)%float (m =? 1)%Z
  && str_eqb (show_rounded minutes) (show_nat (Z.to_nat m)).

(* ------------------------------------------------------------------ *)
(** ** Indexed traversals *)
(* ------------------------------------------------------------------ *)

Section Traversals.

Context {A B : Type}.

Lemma In_map_from (f : A -> nat -> B) (l : list A) :
    forall start y,
      In y (map_from start f l) <->
      exists i x, nth_error l i = Some x /\ y = f x (start + i).
  Proof.
    induction l as [|a l IH]; intros start y; simpl.
    - split; [tauto|]. intros (i & x & H & _). destruct i; discriminate.
    - rewrite IH. split.
      + intros [<- | (i & x & Hi & ->)].
        * exists 0, a. rewrite Nat.add_0_r. auto.
        * exists (S i), x. rewrite Nat.add_succ_r. auto.
      + intros (i & x & Hi & ->). destruct i as [|i]; simpl in Hi.
        * left. injection Hi as ->. now rewrite Nat.add_0_r.
        * right. exists i, x. rewrite Nat.add_succ_r. auto.
  Qed.

Lemma In_mapi (f : A -> nat -> B) (l : list A) (y : B) :
    In y (mapi f l) <-> exists i x, nth_error l i = Some x /\ y = f x i.
  Proof. unfold mapi. now rewrite In_map_from. Qed.

End Traversals.

(* ------------------------------------------------------------------ *)
(** ** Dense paragraphs *)
(* ------------------------------------------------------------------ *)

Lemma describeParagraph_isDense (para : str) (i : nat) :
  DenseParagraph.isDense (describeParagraph para i) = true <->
  denseTriggers (length (extractWords para)) (length (extractSentences para)).
Proof.
  unfold describeParagraph, denseTriggers; cbn [DenseParagraph.isDense].
  unfold THRESHOLDS.PARAGRAPH_DENSITY.DENSE,
         THRESHOLDS.PARAGRAPH_DENSITY.MIN_SENTENCES.
  rewrite !orb_true_iff, !andb_true_iff, !Nat.leb_le. tauto.
Qed.

Lemma In_identifyDenseParagraphs (paragraphs : list str) (d : DenseParagraph.t) :
  In d (identifyDenseParagraphs paragraphs) <->
  exists i para,
    nth_error paragraphs i = Some para /\ d = describeParagraph para i
    /\ denseTriggers (length (extractWords para)) (length (extractSentences para)).
Proof.
  unfold identifyDenseParagraphs. rewrite filter_In, In_mapi. split.
  - intros ((i & para & Hi & ->) & Hd). exists i, para.
    now rewrite <- (describeParagraph_isDense para i).
  - intros (i & para & Hi & -> & Hd). split.
    + exists i, para. auto.
    + now rewrite describeParagraph_isDense.
Qed.

(** What the agreement check establishes below its bounds. *)
Lemma averageTestAgrees_sound (wordBound sentenceBound : nat) :
  averageTestAgrees wordBound sentenceBound = true ->
  forall wordCount sentenceCount,
    wordCount < wordBound -> sentenceCount < sentenceBound ->
    (25 <=? averageLength wordCount sentenceCount)%float = true
    <-> 0 < sentenceCount /\ 25 * sentenceCount <= wordCount.
Proof.
  unfold averageTestAgrees. intros Hall wordCount sentenceCount Hw Hs.
  rewrite forallb_forall in Hall.
  specialize (Hall wordCount (proj2 (in_seq _ _ _) (conj (Nat.le_0_l _) Hw))).
  rewrite forallb_forall in Hall.
  specialize (Hall sentenceCount (proj2 (in_seq _ _ _) (conj (Nat.le_0_l _) Hs))).
  apply Bool.eqb_prop in Hall. rewrite Hall. unfold averageAtLeast25.
  now rewrite andb_true_iff, Nat.ltb_lt, Nat.leb_le.
Qed.

Lemma averageTestAgrees_600_50 : averageTestAgrees 600 50 = true.
Proof. vm_compute. reflexivity. Qed.

(** For paragraphs below 600 words and 50 sentences the float test of the
    average is the test on whole numbers: the quotient is 25 or more
    exactly when there is a sentence and 25 words for each. *)
Lemma average_test_exact (wordCount sentenceCount : nat) :
  wordCount < 600 -> sentenceCount < 50 ->
  (25 <=? averageLength wordCount sentenceCount)%float = true
  <-> 0 < sentenceCount /\ 25 * sentenceCount <= wordCount.
Proof.
  intros Hw Hs. now apply (averageTestAgrees_sound averageTestAgrees_600_50).
Qed.

(** C5: a paragraph of the input list is flagged by
    [identifyDenseParagraphs] (an issue with its position and text is
    returned) if and only if one of the three triggers holds of its
    extracted words and sentences: 100 words and 4 sentences, or 150 words,
    or 80 words and an average sentence length of 25.  So 160 words are
    dense with any number of sentences, 90 words in 2 sentences are dense,
    and 90 words in 5 sentences are not. *)
Theorem identifyDenseParagraphs_flags_iff_triggers :
  (forall (paragraphs : list str) (i : nat) (para : str),
      nth_error paragraphs i = Some para ->
      (exists d, In d (identifyDenseParagraphs paragraphs)
                 /\ DenseParagraph.index d = i /\ DenseParagraph.text d = para)
      <-> ((100 <= length (extractWords para)
            /\ 4 <= length (extractSentences para))
           \/ 150 <= length (extractWords para)
           \/ (80 <= length (extractWords para)
               /\ (25 <=? averageLength (length (extractWords para))
                                        (length (extractSentences para)))%float
                  = true)))
  /\ (forall sentenceCount, denseTriggers 160 sentenceCount)
  /\ denseTriggers 90 2
  /\ ~ denseTriggers 90 5.
Proof.
  split; [|split; [|split]].
  - intros paragraphs i para Hi. fold (denseTriggers (length (extractWords para))
                                         (length (extractSentences para))).
    split.
    + intros (d & Hd & Hidx & _).
      apply (proj1 (In_identifyDenseParagraphs _ _)) in Hd
        as (j & para' & Hj & -> & Ht).
      cbn in Hidx. subst j. congruence.
    + intros Ht. exists (describeParagraph para i). repeat split.
      apply (proj2 (In_identifyDenseParagraphs _ _)). exists i, para. auto.
  - intros sentenceCount. right; left. lia.
  - right; right. split; [lia|]. vm_compute. reflexivity.
  - intros [[H _] | [H | [_ H]]]; try lia. vm_compute in H. discriminate.
Qed.

Lemma identifyDenseParagraphs_flags_witness :
  exists d, In d (identifyDenseParagraphs Samples.paragraphs)
            /\ DenseParagraph.index d = 1
            /\ DenseParagraph.text d = Samples.longParagraph.
Proof.
  pose proof (proj1 identifyDenseParagraphs_flags_iff_triggers
                Samples.paragraphs 1 Samples.longParagraph eq_refl) as H.
  apply H. right; left. apply Nat.leb_le. vm_compute. reflexivity.
Defined.

(** The issues come in the order of the paragraphs: their indices
    increase, so no position is reported twice. *)
Lemma describe_indices_increasing (l : list str) :
  forall start,
    StronglySorted lt
      (map DenseParagraph.index
           (filter DenseParagraph.isDense (map_from start describeParagraph l)))
    /\ Forall (fun i => start <= i)
         (map DenseParagraph.index
              (filter DenseParagraph.isDense (map_from start describeParagraph l))).
Proof.
  induction l as [|para l IH]; intros start; cbn [map_from filter map].
  - split; constructor.
  - destruct (IH (S start)) as [Hs Hf].
    destruct (DenseParagraph.isDense (describeParagraph para start));
      cbn [map].
    + split.
      * constructor; [exact Hs|]. cbn [DenseParagraph.index describeParagraph].
        eapply Forall_impl; [|exact Hf]. cbn. intros; lia.
      * constructor; [cbn; lia|]. eapply Forall_impl; [|exact Hf].
        cbn. intros; lia.
    + split; [exact Hs|]. eapply Forall_impl; [|exact Hf]. cbn. intros; lia.
Qed.

Lemma identifyDenseParagraphs_indices_increasing (paragraphs : list str) :
  StronglySorted lt
    (map DenseParagraph.index (identifyDenseParagraphs paragraphs)).
Proof. exact (proj1 (describe_indices_increasing paragraphs 0)). Qed.

(** C9: every issue returned by [identifyDenseParagraphs] addresses its
    paragraph: [index] is a position of the input list, the list holds
    [text] there, and the issue is the description of that paragraph at
    that position. *)
Theorem identifyDenseParagraphs_index_roundtrip
    (paragraphs : list str) (d : DenseParagraph.t) :
  In d (identifyDenseParagraphs paragraphs) ->
  nth_error paragraphs (DenseParagraph.index d) = Some (DenseParagraph.text d)
  /\ DenseParagraph.index d < length paragraphs
  /\ d = describeParagraph (DenseParagraph.text d) (DenseParagraph.index d).
Proof.
  intros Hd.
  apply (proj1 (In_identifyDenseParagraphs _ _)) in Hd
    as (i & para & Hi & -> & _).
  cbn. split; [exact Hi|]. split; [|reflexivity].
  apply nth_error_Some. congruence.
Qed.

Lemma identifyDenseParagraphs_index_roundtrip_witness :
  nth_error Samples.paragraphs
    (DenseParagraph.index (describeParagraph Samples.longParagraph 1))
  = Some (DenseParagraph.text (describeParagraph Samples.longParagraph 1)).
Proof.
  pose proof (@identifyDenseParagraphs_index_roundtrip Samples.paragraphs
                (describeParagraph Samples.longParagraph 1)) as H.
  apply H. apply (proj2 (In_identifyDenseParagraphs _ _)).
  exists 1, Samples.longParagraph.
  split; [reflexivity|]. split; [reflexivity|].
  right; left. apply Nat.leb_le. vm_compute. reflexivity.
Defined.

(* ------------------------------------------------------------------ *)
(** ** Complex sentences *)
(* ------------------------------------------------------------------ *)

(** Split a conjunction of known facts and one remaining goal. *)
Ltac split_with_facts :=
  repeat lazymatch goal with
         | |- _ /\ _ => split; [assumption|]
         end.

Lemma complexTriggers_test (s : str) :
  (3 <=? countClauses s) && (20 <=? length (extractWords s)) = true
  <-> complexTriggers s.
Proof.
  unfold complexTriggers. now rewrite andb_true_iff, !Nat.leb_le.
Qed.

Lemma visitSentence_step (p : nat) (acc : list ComplexSentence.t) (g : nat)
    (s : str) (i : nat) :
  visitSentence p (acc, g) s i =
  (if (3 <=? countClauses s) && (20 <=? length (extractWords s))
   then acc ++ [complexIssue s g p] else acc, S g).
Proof. reflexivity. Qed.

(** The inner loop: the counter advances by one per sentence and the array
    grows by the issues of the sentences that meet both thresholds. *)
Lemma visitSentences_spec (p : nat) (sents : list str) :
  forall start acc g,
    snd (forEach_from start (visitSentence p) sents (acc, g)) = g + length sents
    /\ forall issue,
         In issue (fst (forEach_from start (visitSentence p) sents (acc, g))) <->
         In issue acc
         \/ exists k s, nth_error sents k = Some s /\ complexTriggers s
                        /\ issue = complexIssue s (g + k) p.
Proof.
  induction sents as [|s sents IH]; intros start acc g.
  - cbn [forEach_from fst snd length]. split; [lia|]. intros issue. split; [tauto|].
    intros [H | (k & s & Hk & _)]; [exact H|]. destruct k; discriminate.
  - cbn [forEach_from length]. rewrite visitSentence_step.
    destruct (IH (S start)
                (if (3 <=? countClauses s) && (20 <=? length (extractWords s))
                 then acc ++ [complexIssue s g p] else acc) (S g)) as [Hn Hin].
    split; [rewrite Hn; lia|]. intros issue. rewrite Hin. clear Hn Hin IH.
    split.
    + intros [H | (k & s' & Hk & Ht & ->)].
      * destruct ((3 <=? countClauses s) && (20 <=? length (extractWords s))) eqn:E.
        -- apply in_app_or in H as [H | [<- | []]]; [now left|].
           right. exists 0, s. rewrite Nat.add_0_r.
           split; [reflexivity|]. split; [now apply complexTriggers_test|reflexivity].
        -- now left.
      * right. exists (S k), s'. rewrite Nat.add_succ_r. auto.
    + intros [H | (k & s' & Hk & Ht & ->)].
      * left. destruct ((3 <=? countClauses s) && (20 <=? length (extractWords s)));
          [apply in_or_app|]; auto.
      * destruct k as [|k]; cbn [nth_error] in Hk.
        -- injection Hk as <-. left. apply complexTriggers_test in Ht.
           rewrite Ht, Nat.add_0_r. apply in_or_app. right. now left.
        -- right. exists k, s'. rewrite Nat.add_succ_r. auto.
Qed.

Lemma sentencesBefore_0 (ps : list str) : sentencesBefore ps 0 = 0.
Proof. reflexivity. Qed.

Lemma sentencesBefore_S (para : str) (ps : list str) (j : nat) :
  sentencesBefore (para :: ps) (S j) =
  length (extractSentences para) + sentencesBefore ps j.
Proof.
  unfold sentencesBefore. cbn [firstn flat_map]. now rewrite length_app.
Qed.

(** The outer loop, from paragraph position [start] and counter [g]. *)
Lemma visitParagraphs_spec (ps : list str) :
  forall start acc g issue,
    In issue (fst (forEach_from start visitParagraph ps (acc, g))) <->
    In issue acc
    \/ exists j para k s,
         nth_error ps j = Some para
         /\ nth_error (extractSentences para) k = Some s
         /\ complexTriggers s
         /\ issue = complexIssue s (g + sentencesBefore ps j + k) (start + j).
Proof.
  induction ps as [|para ps IH]; intros start acc g issue.
  - cbn [forEach_from fst]. split; [tauto|].
    intros [H | (j & para & k & s & Hj & _)]; [exact H|]. destruct j; discriminate.
  - cbn [forEach_from]. unfold visitParagraph at 2. unfold forEach.
    destruct (visitSentences_spec start (extractSentences para) 0 acc g)
      as [Hn Hin].
    destruct (forEach_from 0 (visitSentence start) (extractSentences para) (acc, g))
      as [acc' g'] eqn:E.
    cbn [fst snd] in Hn, Hin. subst g'. rewrite IH, Hin. clear IH Hin E.
    split.
    + intros [[H | (k & s & Hk & Ht & ->)] | (j & para' & k & s & Hj & Hk & Ht & ->)].
      * now left.
      * right. exists 0, para, k, s. rewrite sentencesBefore_0, !Nat.add_0_r. auto.
      * right. exists (S j), para', k, s. rewrite sentencesBefore_S.
        cbn [nth_error]. split_with_facts. f_equal; lia.
    + intros [H | (j & para' & k & s & Hj & Hk & Ht & ->)]; [now left; left|].
      destruct j as [|j]; cbn [nth_error] in Hj.
      * injection Hj as <-. left; right. exists k, s.
        rewrite sentencesBefore_0, !Nat.add_0_r. auto.
      * right. exists j, para', k, s. rewrite sentencesBefore_S.
        split_with_facts. f_equal; lia.
Qed.

(** The issues of [identifyComplexSentences]: one for each sentence that
    meets both thresholds, with its global index and its paragraph. *)
Lemma In_identifyComplexSentences (paragraphs : list str) (issue : ComplexSentence.t) :
  In issue (identifyComplexSentences paragraphs) <->
  exists pIndex para k s,
    nth_error paragraphs pIndex = Some para
    /\ nth_error (extractSentences para) k = Some s
    /\ complexTriggers s
    /\ issue = complexIssue s (sentencesBefore paragraphs pIndex + k) pIndex.
Proof.
  unfold identifyComplexSentences, forEach. rewrite visitParagraphs_spec.
  cbn [In]. split.
  - intros [[] | H]. exact H.
  - intros H. right. exact H.
Qed.

(** C4: the sentence at position [k] of the paragraph at position [pIndex]
    is emitted by [identifyComplexSentences] if and only if its clause
    count is at least 3 and its extracted word count is at least 20.  In
    particular a sentence of 2 clauses and 25 words and one of 4 clauses
    and 15 words are not flagged, and one of 3 clauses and 22 words is. *)
Theorem identifyComplexSentences_flags_iff_triggers :
  (forall (paragraphs : list str) (pIndex : nat) (para : str) (k : nat) (s : str),
      nth_error paragraphs pIndex = Some para ->
      nth_error (extractSentences para) k = Some s ->
      (exists issue,
          In issue (identifyComplexSentences paragraphs)
          /\ ComplexSentence.paragraphIndex issue = pIndex
          /\ ComplexSentence.index issue = sentencesBefore paragraphs pIndex + k
          /\ ComplexSentence.text issue = s)
      <-> (3 <= countClauses s /\ 20 <= length (extractWords s)))
  /\ (countClauses Samples.twoClauses = 2
      /\ length (extractWords Samples.twoClauses) = 25
      /\ identifyComplexSentences [Samples.twoClauses] = [])
  /\ (countClauses Samples.fourClauses = 4
      /\ length (extractWords Samples.fourClauses) = 15
      /\ identifyComplexSentences [Samples.fourClauses] = [])
  /\ (countClauses Samples.threeClauses = 3
      /\ length (extractWords Samples.threeClauses) = 22
      /\ identifyComplexSentences [Samples.threeClauses]
         = [complexIssue Samples.threeClauses 0 0]).
Proof.
  split; [|split; [|split]; (split; [|split]); vm_compute; reflexivity].
  intros paragraphs pIndex para k s Hp Hk. split.
  - intros (issue & Hin & Hpi & Hidx & _).
    apply (proj1 (In_identifyComplexSentences _ _)) in Hin
      as (j & para' & k' & s' & Hj & Hk' & Ht & ->).
    cbn in Hpi, Hidx. subst j.
    assert (para' = para) by congruence. subst para'.
    assert (k' = k) by lia. subst k'.
    assert (s' = s) by congruence. subst s'. exact Ht.
  - intros Ht. exists (complexIssue s (sentencesBefore paragraphs pIndex + k) pIndex).
    split; [|cbn; auto]. apply (proj2 (In_identifyComplexSentences _ _)).
    exists pIndex, para, k, s. auto.
Qed.

Lemma identifyComplexSentences_flags_witness :
  exists issue,
    In issue (identifyComplexSentences [Samples.shortParagraph; Samples.threeClauses])
    /\ ComplexSentence.paragraphIndex issue = 1
    /\ ComplexSentence.index issue
       = sentencesBefore [Samples.shortParagraph; Samples.threeClauses] 1 + 0
    /\ ComplexSentence.text issue = Samples.threeClauses.
Proof.
  pose proof (proj1 identifyComplexSentences_flags_iff_triggers
                [Samples.shortParagraph; Samples.threeClauses] 1
                Samples.threeClauses 0 Samples.threeClauses eq_refl) as H.
  apply H.
  - vm_compute. reflexivity.
  - split; apply Nat.leb_le; vm_compute; reflexivity.
Defined.

(* ------------------------------------------------------------------ *)
(** ** The entry point *)
(* ------------------------------------------------------------------ *)

(** The two extractions leave by the same guard and fail on the same
    arguments. *)
Lemma extractWords_any_Ok (text : jsval) (words : list str) :
  extractWords_any text = Ok words ->
  exists sentences, extractSentences_any text = Ok sentences.
Proof.
  unfold extractWords_any, extractSentences_any.
  destruct (truthy text); cbn [negb]; [|eauto].
  destruct text; try discriminate. eauto.
Qed.

(** On a string, and on any falsy argument, [analyzeText] returns. *)
Lemma analyzeText_returns (text : jsval) (paragraphs : option (list str)) :
  (truthy text = false \/ exists s, text = VStr s) ->
  exists r, analyzeText text paragraphs = Ok r.
Proof.
  intros H. unfold analyzeText, extractSentences_any, extractWords_any.
  destruct H as [H | [s ->]].
  - rewrite H. cbn [negb bind]. eauto.
  - destruct (truthy (VStr s)); cbn [negb bind]; eauto.
Qed.

(** The record [analyzeText] builds from the extracted sentences and
    words. *)
Lemma analyzeText_Ok (text : jsval) (paragraphs : option (list str))
    (r : AnalysisResult.t) :
  analyzeText text paragraphs = Ok r ->
  exists sentences words,
    extractSentences_any text = Ok sentences
    /\ extractWords_any text = Ok words
    /\ AnalysisResult.wordCount r = length words
    /\ AnalysisResult.sentenceCount r = length sentences
    /\ AnalysisResult.level r =
       classifyReadability
         (averageLength (length words) (length sentences))
         (ComplexWords.ratio (identifyComplexWords words))
         (Some (AnalysisResult.grade r)) (length words)
    /\ AnalysisResult.isLowConfidence r = (length words <? 100)
    /\ AnalysisResult.issues r =
       {| Issues.complexSentences :=
            identifyComplexSentences
              (match paragraphs with Some ps => ps | None => [] end);
          Issues.denseParagraphs :=
            identifyDenseParagraphs
              (match paragraphs with Some ps => ps | None => [] end) |}
    /\ AnalysisResult.issueCount r =
       length (Issues.complexSentences (AnalysisResult.issues r))
       + length (Issues.denseParagraphs (AnalysisResult.issues r)).
Proof.
  unfold analyzeText.
  destruct (extractSentences_any text) as [sentences|e]; cbn [bind];
    [|discriminate].
  destruct (extractWords_any text) as [words|e]; cbn [bind]; [|discriminate].
  intros H. injection H as <-. exists sentences, words.
  cbn. repeat split.
Qed.

(** C1: when the words extracted from the text are fewer than 100,
    [analyzeText] returns a result whose level is Medium and whose
    low-confidence flag is set, whatever the grade. *)
Theorem analyzeText_short_text_is_medium
    (text : jsval) (paragraphs : option (list str)) (words : list str) :
  extractWords_any text = Ok words ->
  length words < 100 ->
  exists r,
    analyzeText text paragraphs = Ok r
    /\ AnalysisResult.wordCount r = length words
    /\ AnalysisResult.level r = Medium
    /\ AnalysisResult.isLowConfidence r = true.
Proof.
  intros Hw Hlt.
  destruct (extractWords_any_Ok text Hw) as [sentences Hs].
  assert (Hr : exists r, analyzeText text paragraphs = Ok r).
  { unfold analyzeText. rewrite Hs, Hw. cbn [bind]. eauto. }
  destruct Hr as [r Hr]. exists r. split; [exact Hr|].
  apply analyzeText_Ok in Hr
    as (sentences' & words' & _ & Hw' & Hwc & _ & Hlevel & Hlow & _).
  assert (words' = words) by congruence. subst words'.
  apply Nat.ltb_lt in Hlt.
  split; [exact Hwc|]. split.
  - rewrite Hlevel. unfold classifyReadability. now rewrite Hlt.
  - now rewrite Hlow.
Qed.

Lemma analyzeText_short_text_witness :
  exists r,
    analyzeText (VStr Samples.doctor) None = Ok r
    /\ AnalysisResult.wordCount r = length (extractWords Samples.doctor)
    /\ AnalysisResult.level r = Medium
    /\ AnalysisResult.isLowConfidence r = true.
Proof.
  pose proof (analyzeText_short_text_is_medium (VStr Samples.doctor) None
                (words := extractWords Samples.doctor) eq_refl) as H.
  apply H. apply Nat.ltb_lt. vm_compute. reflexivity.
Defined.

(** C10: the record returned by [analyzeText] has an [issueCount], the
    number of complex sentences plus the number of dense paragraphs it
    lists. *)
Theorem analyzeText_issueCount
    (text : jsval) (paragraphs : option (list str)) (r : AnalysisResult.t) :
  analyzeText text paragraphs = Ok r ->
  AnalysisResult.issueCount r =
  length (Issues.complexSentences (AnalysisResult.issues r))
  + length (Issues.denseParagraphs (AnalysisResult.issues r)).
Proof.
  intros Hr. apply analyzeText_Ok in Hr as (_ & _ & _ & _ & _ & _ & _ & _ & _ & H).
  exact H.
Qed.

Lemma analyzeText_issueCount_witness :
  exists r,
    analyzeText (VStr Samples.doctor) (Some [Samples.threeClauses]) = Ok r
    /\ AnalysisResult.issueCount r =
       length (Issues.complexSentences (AnalysisResult.issues r))
       + length (Issues.denseParagraphs (AnalysisResult.issues r)).
Proof.
  eexists. split.
  - vm_compute. reflexivity.
  - apply (@analyzeText_issueCount (VStr Samples.doctor)
             (Some [Samples.threeClauses])).
    vm_compute. reflexivity.
Defined.

(** C8, as stated, fails: a null text raises nothing; the guards of the
    two extractions let it through and [analyzeText] returns the result of
    an empty text. *)
Lemma analyzeText_null_returns :
  (forall e, analyzeText VNull None <> Throw e)
  /\ exists r,
       analyzeText VNull None = Ok r
       /\ AnalysisResult.wordCount r = 0
       /\ AnalysisResult.sentenceCount r = 0
       /\ AnalysisResult.level r = Medium.
Proof.
  split.
  - intros e. vm_compute. discriminate.
  - eexists. split; [vm_compute; reflexivity|]. cbn. auto.
Qed.

(** C8, amended: a text that is not a string is not rejected by name.  A
    falsy one (null, undefined, false, 0, NaN) gives the result of an empty
    text: no words, no sentences, grade 0, level Medium, low confidence.  A
    truthy one (true, another number) raises the runtime's TypeError for
    the string method it lacks. *)
Theorem analyzeText_non_string
    (text : jsval) (paragraphs : option (list str)) :
  (forall s, text <> VStr s) ->
  if truthy text
  then analyzeText text paragraphs = Throw (TypeError "text.trim is not a function")
  else exists r,
      analyzeText text paragraphs = Ok r
      /\ AnalysisResult.wordCount r = 0
      /\ AnalysisResult.sentenceCount r = 0
      /\ AnalysisResult.grade r = 0%float
      /\ AnalysisResult.level r = Medium
      /\ AnalysisResult.isLowConfidence r = true.
Proof.
  intros Hns. destruct (truthy text) eqn:Ht.
  - unfold analyzeText, extractSentences_any. rewrite Ht. cbn [negb].
    destruct text; try reflexivity. now destruct (Hns s).
  - unfold analyzeText, extractSentences_any, extractWords_any. rewrite Ht.
    cbn [negb bind]. eexists. split; [reflexivity|]. cbn. auto.
Qed.

Lemma analyzeText_non_string_witness :
  analyzeText (VNum 5) None = Throw (TypeError "text.trim is not a function")
  /\ exists r,
       analyzeText VNull None = Ok r
       /\ AnalysisResult.wordCount r = 0
       /\ AnalysisResult.sentenceCount r = 0
       /\ AnalysisResult.grade r = 0%float
       /\ AnalysisResult.level r = Medium
       /\ AnalysisResult.isLowConfidence r = true.
Proof.
  split.
  - apply (@analyzeText_non_string (VNum 5) None). intros s; discriminate.
  - apply (@analyzeText_non_string VNull None). intros s; discriminate.
Defined.

(* ------------------------------------------------------------------ *)
(** ** Grade and difficulty *)
(* ------------------------------------------------------------------ *)

(** Zero is not below a number that is above zero. *)
Lemma ltb_zero_asym (r : float) :
  (0 <? r)%float = true -> (r <? 0)%float = false.
Proof.
  rewrite !FloatAxioms.ltb_spec. change (Prim2SF 0) with (S754_zero false).
  destruct (Prim2SF r) as [s|s| |s m e]; cbn; try destruct s;
    try discriminate; reflexivity.
Qed.

(** The floor at zero leaves nothing below zero. *)
Lemma flooredAtZero_not_negative (x : float) :
  (flooredAtZero x <? 0)%float = false.
Proof.
  unfold flooredAtZero, Math_max.
  change (PrimFloat.is_nan 0) with false. cbn [orb].
  destruct (PrimFloat.is_nan x); [reflexivity|].
  destruct (0 <? x)%float eqn:E; [now apply ltb_zero_asym|].
  destruct (x <? 0)%float; reflexivity.
Qed.

(** C2: [calculateFleschKincaid] returns 0 when the sentence count or the
    word count is 0, and otherwise the grade formula rounded to one decimal
    and floored at 0, so that no result is below 0.  For 150 words, 10
    sentences and 220 syllables that is 7.6; for 3 words, 1 sentence and 3
    syllables the formula is negative and the result is 0. *)
Theorem calculateFleschKincaid_spec :
  (forall totalWords totalSentences totalSyllables : float,
      ((totalSentences =? 0)%float = true \/ (totalWords =? 0)%float = true ->
       calculateFleschKincaid totalWords totalSentences totalSyllables = 0%float)
      /\ ((totalSentences =? 0)%float = false ->
          (totalWords =? 0)%float = false ->
          calculateFleschKincaid totalWords totalSentences totalSyllables
          = flooredAtZero
              (roundToOneDecimal
                 (gradeFormula totalWords totalSentences totalSyllables)))
      /\ (calculateFleschKincaid totalWords totalSentences totalSyllables <? 0)%float
         = false)
  /\ calculateFleschKincaid 150 10 220 = 7.6%float
  /\ ((gradeFormula 3 1 3 <? 0)%float = true
      /\ calculateFleschKincaid 3 1 3 = 0%float).
Proof.
  split; [|split; [|split]; vm_compute; reflexivity].
  intros w s y.
  assert (Hnz : (s =? 0)%float = false -> (w =? 0)%float = false ->
                calculateFleschKincaid w s y
                = flooredAtZero (roundToOneDecimal (gradeFormula w s y))).
  { intros Hs Hw. unfold calculateFleschKincaid. rewrite Hs, Hw. reflexivity. }
  assert (Hz : (s =? 0)%float = true \/ (w =? 0)%float = true ->
               calculateFleschKincaid w s y = 0%float).
  { unfold calculateFleschKincaid. intros [H | H]; rewrite H; [reflexivity|].
    now rewrite orb_true_r. }
  split; [exact Hz|]. split; [exact Hnz|].
  destruct (s =? 0)%float eqn:Es; [rewrite Hz; auto|].
  destruct (w =? 0)%float eqn:Ew; [rewrite Hz; auto|].
  rewrite Hnz by reflexivity. apply flooredAtZero_not_negative.
Qed.

Lemma calculateFleschKincaid_spec_witness :
  calculateFleschKincaid 0 10 220 = 0%float
  /\ calculateFleschKincaid 150 10 220
     = flooredAtZero (roundToOneDecimal (gradeFormula 150 10 220)).
Proof.
  split.
  - apply (proj1 (proj1 calculateFleschKincaid_spec 0 10 220)%float).
    right. vm_compute. reflexivity.
  - apply (proj1 (proj2 (proj1 calculateFleschKincaid_spec 150 10 220)%float));
      vm_compute; reflexivity.
Defined.

(** C3: with at least 100 words and a grade, [classifyReadability] gives
    Easy up to grade 6, Medium up to grade 12 and Hard above, except that
    below 300 words a Hard verdict with a grade under 15 becomes Medium.
    So 6.0 is Easy, 6.1 and 12.0 are Medium, and 12.1 is Hard from 300
    words on and Medium below. *)
Theorem classifyReadability_by_grade
    (avgSentenceLength complexRatio fkGrade : float) (wordCount : nat) :
  100 <= wordCount ->
  classifyReadability avgSentenceLength complexRatio (Some fkGrade) wordCount
  = (if (fkGrade <=? 6)%float then Easy
     else if (fkGrade <=? 12)%float then Medium
     else if (wordCount <? 300) && (fkGrade <? 15)%float then Medium
     else Hard)
  /\ classifyReadability avgSentenceLength complexRatio (Some 6.0%float) wordCount = Easy
  /\ classifyReadability avgSentenceLength complexRatio (Some 6.1%float) wordCount = Medium
  /\ classifyReadability avgSentenceLength complexRatio (Some 12.0%float) wordCount = Medium
  /\ classifyReadability avgSentenceLength complexRatio (Some 12.1%float) wordCount
     = (if wordCount <? 300 then Medium else Hard).
Proof.
  intros Hwc.
  assert (Hge : (wordCount <? 100) = false) by (apply Nat.ltb_ge; exact Hwc).
  assert (Hgen : forall g,
    classifyReadability avgSentenceLength complexRatio (Some g) wordCount
    = (if (g <=? 6)%float then Easy
       else if (g <=? 12)%float then Medium
       else if (wordCount <? 300) && (g <? 15)%float then Medium
       else Hard)).
  { intros g. unfold classifyReadability. rewrite Hge.
    destruct (g <=? 6)%float; [now rewrite andb_false_r|].
    destruct (g <=? 12)%float; [now rewrite andb_false_r|].
    cbn [Level_eqb]. now rewrite andb_true_r. }
  split; [apply Hgen|].
  rewrite !Hgen.
  change (6.0 <=? 6)%float with true.
  change (6.1 <=? 6)%float with false.
  change (6.1 <=? 12)%float with true.
  change (12.0 <=? 6)%float with false.
  change (12.0 <=? 12)%float with true.
  change (12.1 <=? 6)%float with false.
  change (12.1 <=? 12)%float with false.
  change (12.1 <? 15)%float with true.
  cbn iota. repeat split. now rewrite andb_true_r.
Qed.

Lemma classifyReadability_by_grade_witness :
  classifyReadability 20 0.1 (Some 12.1%float) 250 = Medium
  /\ classifyReadability 20 0.1 (Some 12.1%float) 300 = Hard.
Proof.
  split.
  - rewrite (proj1 (classifyReadability_by_grade 20 0.1 12.1 (wordCount := 250)
                      ltac:(lia))).
    reflexivity.
  - rewrite (proj1 (classifyReadability_by_grade 20 0.1 12.1 (wordCount := 300)
                      ltac:(lia))).
    reflexivity.
Defined.

(* ------------------------------------------------------------------ *)
(** ** Sentence segmentation *)
(* ------------------------------------------------------------------ *)

(** C6: [extractSentences] returns the text "Dr. Smith went to Washington,
    D.C. on Monday." as one sentence, the whole text.  The protection step
    has marked the period after "Dr" and the one that ends "D.C." as
    abbreviation periods, so the only split is at the end of the text. *)
Theorem extractSentences_doctor :
  extractSentences Samples.doctor = [Samples.doctor]
  /\ protectText Samples.doctor
     = lit "Dr<ABBR> Smith went to Washington, D.C<ABBR> on Monday."
  /\ splitSentences (protectText Samples.doctor)
     = [lit "Dr<ABBR> Smith went to Washington, D.C<ABBR> on Monday."; []].
Proof.
  split; [|split]; vm_compute; reflexivity.
Qed.

(* ------------------------------------------------------------------ *)
(** ** Syllables *)
(* ------------------------------------------------------------------ *)

Lemma includes_single (c : ascii) (s : str) : includes [c] s = true <-> In c s.
Proof.
  induction s as [|x s IH]; cbn [includes startsWith In].
  - split; [discriminate|tauto].
  - rewrite orb_true_iff, IH, andb_true_r. unfold char_eqb.
    rewrite Ascii.eqb_eq. split; intros [H|H]; auto.
Qed.

Lemma In_trimStart (x : ascii) (s : str) : In x (trimStart s) -> In x s.
Proof.
  induction s as [|c s IH]; cbn [trimStart]; [tauto|].
  destruct (isSpace c); [right; auto|auto].
Qed.

Lemma In_trim (x : ascii) (s : str) : In x (trim s) -> In x s.
Proof.
  unfold trim, trimEnd. intros H.
  apply In_trimStart. apply in_rev. apply In_trimStart. now apply in_rev.
Qed.

Lemma length_trimStart (s : str) : length (trimStart s) <= length s.
Proof.
  induction s as [|c s IH]; cbn [trimStart length]; [lia|].
  destruct (isSpace c); cbn [length]; lia.
Qed.



Lemma lowerChar_hyphen (c : ascii) : lowerChar c = "-"%char -> c = "-"%char.
Proof.
  destruct c as [[] [] [] [] [] [] [] []]; vm_compute; intros H; congruence.
Qed.

Lemma In_hyphen_normalized (p : str) :
  In "-"%char (trim (toLowerCase p)) -> In "-"%char p.
Proof.
  intros H. apply In_trim in H. unfold toLowerCase in H.
  apply in_map_iff in H as (c & Hc & Hin). apply lowerChar_hyphen in Hc.
  now subst c.
Qed.

(** The pieces of a split at a one-character separator hold no separator. *)
Lemma split_aux_pieces (c : ascii) :
  forall fuel s acc p x,
    length s < fuel ->
    In p (split_aux fuel [c] s acc) -> In x p -> In x acc \/ x <> c.
Proof.
  induction fuel as [|fuel IH]; intros s acc p x Hlen Hp Hx; [lia|].
  destruct s as [|y s]; cbn [split_aux] in Hp.
  - destruct Hp as [<- | []]. left. now apply in_rev.
  - cbn [startsWith] in Hp. rewrite andb_true_r in Hp. cbn [length] in Hlen.
    unfold char_eqb in Hp. destruct (Ascii.eqb c y) eqn:E.
    + destruct Hp as [<- | Hp]; [left; now apply in_rev|].
      cbn [length skipn] in Hp.
      destruct (IH s [] p x ltac:(lia) Hp Hx) as [[] | H]. now right.
    + destruct (IH s (y :: acc) p x ltac:(lia) Hp Hx) as [[<- | H] | H]; auto.
      right. intros ->. now rewrite Ascii.eqb_refl in E.
Qed.

Lemma split_pieces (c : ascii) (s p : str) :
  In p (split [c] s) -> ~ In c p.
Proof.
  unfold split. intros Hp Hc.
  destruct (@split_aux_pieces c (S (length s)) s [] p c ltac:(lia) Hp Hc)
    as [[] | H]. now apply H.
Qed.



Lemma fold_left_ext_in {A S : Type} (f g : S -> A -> S) (l : list A) :
  (forall a x, In x l -> f a x = g a x) ->
  forall a, fold_left f l a = fold_left g l a.
Proof.
  induction l as [|x l IH]; intros H a; cbn [fold_left]; [reflexivity|].
  rewrite (H a x (or_introl eq_refl)). apply IH.
  intros b y Hy. apply H. now right.
Qed.

(** The body reads [recur] on the parts of the normalized word only. *)
Lemma countSyllables_body_ext (r1 r2 : str -> jsnum) (word : str) :
  (forall p, In p (split (lit "-") (trim (toLowerCase word))) -> r1 p = r2 p) ->
  countSyllables_body r1 word = countSyllables_body r2 word.
Proof.
  intros H. unfold countSyllables_body.
  destruct (length word =? 0); [reflexivity|].
  destruct (length (trim (toLowerCase word)) <=? 2); [reflexivity|].
  destruct (get_property SYLLABLE_OVERRIDES (trim (toLowerCase word)))
    as [[[|n]|]|]; try reflexivity;
    (destruct (includes (lit "-") (trim (toLowerCase word))); [|reflexivity]);
    apply fold_left_ext_in; intros a p Hp; now rewrite (H p Hp).
Qed.

(** On a word without hyphen the body does not read [recur] at all. *)
Lemma countSyllables_body_no_hyphen (r1 r2 : str -> jsnum) (p : str) :
  ~ In "-"%char p ->
  countSyllables_body r1 p = countSyllables_body r2 p.
Proof.
  intros Hp. unfold countSyllables_body.
  assert (E : includes (lit "-") (trim (toLowerCase p)) = false).
  { destruct (includes (lit "-") (trim (toLowerCase p))) eqn:E; [|reflexivity].
    exfalso. apply Hp, In_hyphen_normalized.
    now apply (proj1 (includes_single "-" _)). }
  rewrite E. reflexivity.
Qed.

(** [countSyllables] satisfies the equation of the method: its body with
    the method itself for the nested calls. *)
Lemma countSyllables_unfold (word : str) :
  countSyllables word = countSyllables_body countSyllables word.
Proof.
  unfold countSyllables.
  change (countSyllables_at 1 word)
    with (countSyllables_body (countSyllables_at 0) word).
  apply countSyllables_body_ext. intros p Hp.
  change (countSyllables_at 0 p)
    with (countSyllables_body (fun _ => JNum 0) p).
  change (countSyllables_at 1 p)
    with (countSyllables_body (countSyllables_at 0) p).
  apply countSyllables_body_no_hyphen. exact (split_pieces _ _ _ Hp).
Qed.

Lemma vowelPatternSyllables_positive (word : str) :
  1 <= vowelPatternSyllables word.
Proof. unfold vowelPatternSyllables, Math_max_nat. lia. Qed.

Lemma get_property_plain (word : str) :
  plainLookup word ->
  get_property SYLLABLE_OVERRIDES (trim (toLowerCase word)) <> Some JOther.
Proof.
  unfold plainLookup, get_property. intros H.
  destruct (find _ SYLLABLE_OVERRIDES); [discriminate|].
  rewrite H. discriminate.
Qed.

(** A word without hyphen that reads no inherited property has a count,
    and a positive one unless the word is empty. *)
Lemma countSyllables_no_hyphen (p : str) :
  ~ In "-"%char p -> plainLookup p ->
  exists n, countSyllables p = JNum n /\ (p <> [] -> 1 <= n).
Proof.
  intros Hp Hplain. rewrite countSyllables_unfold. unfold countSyllables_body.
  destruct p as [|c p'] eqn:Ep.
  { exists 0. split; [reflexivity|congruence]. }
  rewrite <- Ep in *. replace (length p =? 0) with false
    by (subst p; reflexivity).
  destruct (length (trim (toLowerCase p)) <=? 2).
  { exists 1. split; [reflexivity|lia]. }
  pose proof (get_property_plain Hplain) as Hno.
  assert (E : includes (lit "-") (trim (toLowerCase p)) = false).
  { destruct (includes (lit "-") (trim (toLowerCase p))) eqn:E; [|reflexivity].
    exfalso. apply Hp, In_hyphen_normalized.
    now apply (proj1 (includes_single "-" _)). }
  destruct (get_property SYLLABLE_OVERRIDES (trim (toLowerCase p)))
    as [[[|n]|]|]; try congruence; rewrite ?E.
  - exists (vowelPatternSyllables (trim (toLowerCase p))).
    split; [reflexivity|]. intros _. apply vowelPatternSyllables_positive.
  - exists (S n). split; [reflexivity|lia].
  - exists (vowelPatternSyllables (trim (toLowerCase p))).
    split; [reflexivity|]. intros _. apply vowelPatternSyllables_positive.
Qed.


Lemma str_eqb_eq (a b : str) : str_eqb a b = true <-> a = b.
Proof.
  revert b. induction a as [|x a IH]; intros [|y b]; cbn [str_eqb];
    try (split; [discriminate|congruence]); [tauto|].
  rewrite andb_true_iff, IH. unfold char_eqb. rewrite Ascii.eqb_eq.
  split; [intros [-> ->]; reflexivity|intros [= -> ->]; auto].
Qed.



(** The slip next to it: the word "constructor" names a property that
    the override table inherits, and the method returns that property, not
    a count. *)
Lemma countSyllables_inherited_property :
  countSyllables (lit "constructor") = JOther
  /\ ~ plainLookup (lit "constructor").
Proof.
  split; [vm_compute; reflexivity|]. intros H. vm_compute in H. discriminate.
Qed.



(* ================================================================== *)
(** * Further properties of the analyzer *)
(* ================================================================== *)

(** The theorems below are read off the code: what the functions keep,
    exclude and return at their edges. *)

(* ------------------------------------------------------------------ *)
(** ** Sets of strings and complex words *)
(* ------------------------------------------------------------------ *)

Lemma str_mem_In (x : str) (l : list str) : str_mem x l = true <-> In x l.
Proof.
  unfold str_mem. rewrite existsb_exists. split.
  - intros (y & Hy & E). apply str_eqb_eq in E. now subst.
  - intros H. exists x. split; [exact H|]. now apply str_eqb_eq.
Qed.

(** Insertion into a set keeps it duplicate-free and adds the items. *)
Lemma new_Set_fold (items : list str) :
  forall acc,
    NoDup acc ->
    NoDup (fold_left (fun acc x => if str_mem x acc then acc else acc ++ [x])
                     items acc)
    /\ forall y,
         In y (fold_left (fun acc x => if str_mem x acc then acc else acc ++ [x])
                         items acc)
         <-> In y acc \/ In y items.
Proof.
  induction items as [|x items IH]; intros acc Hnd; cbn [fold_left].
  - split; [exact Hnd|]. intros y. cbn [In]. tauto.
  - destruct (str_mem x acc) eqn:E.
    + destruct (IH acc Hnd) as [H1 H2]. split; [exact H1|].
      intros y. rewrite H2. cbn [In]. apply str_mem_In in E.
      split; [tauto|]. intros [H | [<- | H]]; auto.
    + assert (Hx : ~ In x acc).
      { intros H. apply str_mem_In in H. congruence. }
      assert (Hnd' : NoDup (acc ++ [x])).
      { apply NoDup_app; [exact Hnd|repeat constructor; intros []|].
        intros y Hy [<- | []]. exact (Hx Hy). }
      destruct (IH (acc ++ [x]) Hnd') as [H1 H2]. split; [exact H1|].
      intros y. rewrite H2, in_app_iff. cbn [In]. tauto.
Qed.

Lemma new_Set_NoDup (items : list str) : NoDup (new_Set items).
Proof. exact (proj1 (new_Set_fold items (NoDup_nil _))). Qed.

Lemma In_new_Set (items : list str) (y : str) :
  In y (new_Set items) <-> In y items.
Proof.
  unfold new_Set. rewrite (proj2 (new_Set_fold items (NoDup_nil _))).
  cbn [In]. tauto.
Qed.

(** X1: the list of complex words has no duplicates and holds exactly the
    words that pass the test; the count is the number of occurrences that
    pass, between the number of distinct complex words and the number of
    words; and a complex word has at least 6 characters, is not one of the
    common words, and counts 3 syllables or more. *)
Theorem identifyComplexWords_unique_and_counted (words : list str) :
  NoDup (ComplexWords.words (identifyComplexWords words))
  /\ (forall w, In w (ComplexWords.words (identifyComplexWords words))
                <-> In w words /\ isComplexWord w = true)
  /\ ComplexWords.count (identifyComplexWords words)
     = length (filter isComplexWord words)
  /\ length (ComplexWords.words (identifyComplexWords words))
     <= ComplexWords.count (identifyComplexWords words)
  /\ ComplexWords.count (identifyComplexWords words) <= length words
  /\ (forall w, In w (ComplexWords.words (identifyComplexWords words)) ->
                6 <= length w
                /\ ~ In w COMMON_POLYSYLLABIC
                /\ exists n, countSyllables w = JNum n /\ 3 <= n).
Proof.
  unfold identifyComplexWords. cbn [ComplexWords.words ComplexWords.count].
  assert (Hin : forall w, In w (new_Set (filter isComplexWord words))
                          <-> In w words /\ isComplexWord w = true).
  { intros w. now rewrite In_new_Set, filter_In. }
  split; [apply new_Set_NoDup|]. split; [exact Hin|]. split; [reflexivity|].
  split; [|split].
  - apply NoDup_incl_length; [apply new_Set_NoDup|].
    intros w Hw. exact (proj1 (In_new_Set _ _) Hw).
  - clear Hin. induction words as [|w words IH]; cbn [filter length]; [lia|].
    destruct (isComplexWord w); cbn [length]; lia.
  - intros w Hw. apply Hin in Hw as [_ Hc]. unfold isComplexWord in Hc.
    destruct (length w <? 6) eqn:E6; [discriminate|].
    destruct (str_mem w COMMON_POLYSYLLABIC) eqn:Ec; [discriminate|].
    apply Nat.ltb_ge in E6. split; [exact E6|]. split.
    + intros H. apply str_mem_In in H. congruence.
    + unfold js_ge in Hc. destruct (countSyllables w) as [n|]; [|discriminate].
      exists n. split; [reflexivity|]. now apply Nat.leb_le.
Qed.

(* ------------------------------------------------------------------ *)
(** ** Difficulty and the result record *)
(* ------------------------------------------------------------------ *)

(** What an extreme verdict of [classifyReadability] needs. *)
Lemma classifyReadability_verdicts
    (avgSentenceLength complexRatio : float) (fkGrade : option float)
    (wordCount : nat) :
  (classifyReadability avgSentenceLength complexRatio fkGrade wordCount = Easy ->
   100 <= wordCount
   /\ forall g, fkGrade = Some g -> (g <=? 6)%float = true)
  /\ (classifyReadability avgSentenceLength complexRatio fkGrade wordCount = Hard ->
      100 <= wordCount
      /\ (forall g, fkGrade = Some g ->
                    (g <=? 12)%float = false
                    /\ (wordCount < 300 -> (g <? 15)%float = false))
      /\ (fkGrade = None ->
          300 <= wordCount
          /\ (avgSentenceLength <=? THRESHOLDS.SENTENCE_LENGTH.EASY)%float = false
          /\ (complexRatio <=? THRESHOLDS.COMPLEX_RATIO.EASY)%float = false)).
Proof.
  unfold classifyReadability.
  destruct (wordCount <? 100) eqn:E100; [split; discriminate|].
  apply Nat.ltb_ge in E100.
  destruct fkGrade as [g|].
  - destruct (g <=? 6)%float eqn:E6; cbn [Level_eqb];
      rewrite ?andb_false_r; cbn [andb].
    + split; [|discriminate]. intros _. split; [exact E100|].
      intros g' [= <-]. exact E6.
    + destruct (g <=? 12)%float eqn:E12; cbn [Level_eqb];
        rewrite ?andb_false_r; cbn [andb]; [split; discriminate|].
      rewrite andb_true_r.
      destruct (wordCount <? 300) eqn:E300; cbn [andb].
      * destruct (g <? 15)%float eqn:E15; [split; discriminate|].
        split; [discriminate|]. intros _. split; [exact E100|].
        split; [|discriminate]. intros g' [= <-]. auto.
      * apply Nat.ltb_ge in E300. split; [discriminate|]. intros _.
        split; [exact E100|]. split; [|discriminate].
        intros g' [= <-]. split; [exact E12|]. lia.
  - destruct (avgSentenceLength <=? THRESHOLDS.SENTENCE_LENGTH.EASY)%float;
      destruct (avgSentenceLength <=? THRESHOLDS.SENTENCE_LENGTH.MEDIUM)%float;
      destruct (complexRatio <=? THRESHOLDS.COMPLEX_RATIO.EASY)%float;
      destruct (complexRatio <=? THRESHOLDS.COMPLEX_RATIO.HARD)%float;
      cbn [Nat.add Nat.leb Level_eqb andb];
      rewrite ?andb_false_r, ?andb_true_r;
      try (split; [intros _; split; [exact E100|discriminate]|discriminate]);
      try (split; discriminate);
      (destruct (wordCount <? 300) eqn:E300; [split; discriminate|];
       apply Nat.ltb_ge in E300; split; [discriminate|]; intros _;
       split; [exact E100|]; split; [discriminate|]; intros _; auto).
Qed.

(** X2: [classifyReadability] gives an extreme verdict only on enough
    text.  Easy needs 100 words, and with a grade a grade of at most 6.
    Hard needs 100 words; with a grade it needs a grade above 12, and below
    300 words one that is not under 15; without a grade it needs 300 words
    and both the sentence length and the complex ratio above their easy
    bands. *)
Theorem classifyReadability_extremes
    (avgSentenceLength complexRatio : float) (fkGrade : option float)
    (wordCount : nat) :
  (classifyReadability avgSentenceLength complexRatio fkGrade wordCount = Easy ->
   100 <= wordCount
   /\ forall g, fkGrade = Some g -> (g <=? 6)%float = true)
  /\ (classifyReadability avgSentenceLength complexRatio fkGrade wordCount = Hard ->
      100 <= wordCount
      /\ (forall g, fkGrade = Some g ->
                    (g <=? 12)%float = false
                    /\ (wordCount < 300 -> (g <? 15)%float = false))
      /\ (fkGrade = None ->
          300 <= wordCount
          /\ (avgSentenceLength <=? THRESHOLDS.SENTENCE_LENGTH.EASY)%float = false
          /\ (complexRatio <=? THRESHOLDS.COMPLEX_RATIO.EASY)%float = false)).
Proof.
  exact (classifyReadability_verdicts avgSentenceLength complexRatio fkGrade
           wordCount).
Qed.

(** With a grade the two other signals are not read. *)
Lemma classifyReadability_grade_only
    (a b a' b' g : float) (wordCount : nat) :
  classifyReadability a b (Some g) wordCount
  = classifyReadability a' b' (Some g) wordCount.
Proof. reflexivity. Qed.

(** The record [analyzeText] returns, field by field. *)
Lemma analyzeText_record (text : jsval) (paragraphs : option (list str))
    (r : AnalysisResult.t) :
  analyzeText text paragraphs = Ok r ->
  exists sentences words,
    extractSentences_any text = Ok sentences
    /\ extractWords_any text = Ok words
    /\ AnalysisResult.wordCount r = length words
    /\ AnalysisResult.sentenceCount r = length sentences
    /\ AnalysisResult.grade r =
       calculateFleschKincaid (num (length words)) (num (length sentences))
         (toNumber
            (fold_left (fun sum word => jsadd sum (countSyllables word))
                       words (JNum 0)))
    /\ AnalysisResult.level r =
       classifyReadability
         (averageLength (length words) (length sentences))
         (ComplexWords.ratio (identifyComplexWords words))
         (Some (AnalysisResult.grade r)) (length words)
    /\ AnalysisResult.readingTime r =
       calculateReadingTime (length words) (AnalysisResult.level r)
    /\ AnalysisResult.sentenceQuality r =
       classifySentenceQuality (averageLength (length words) (length sentences))
    /\ AnalysisResult.wordCountCategory r = classifyWordCount (length words)
    /\ AnalysisResult.avgSentenceLength r =
       roundToOneDecimal (averageLength (length words) (length sentences))
    /\ AnalysisResult.isLowConfidence r = (length words <? 100).
Proof.
  unfold analyzeText.
  destruct (extractSentences_any text) as [sentences|e]; cbn [bind];
    [|discriminate].
  destruct (extractWords_any text) as [words|e]; cbn [bind]; [|discriminate].
  intros H. injection H as <-. exists sentences, words.
  cbn. repeat split.
Qed.

(** X3: a result without words is the zeroed result: grade 0, level
    Medium, low confidence, a reading time of 0 minutes shown as "< 1 min"
    at 0 words per minute, and the category Quick Read.  A result without
    sentences has grade 0, average sentence length 0 and the sentence
    quality Too Short. *)
Theorem analyzeText_degenerate
    (text : jsval) (paragraphs : option (list str)) (r : AnalysisResult.t) :
  analyzeText text paragraphs = Ok r ->
  (AnalysisResult.wordCount r = 0 ->
   AnalysisResult.grade r = 0%float
   /\ AnalysisResult.level r = Medium
   /\ AnalysisResult.isLowConfidence r = true
   /\ AnalysisResult.readingTime r
      = {| ReadingTime.minutes := 0; ReadingTime.wpm := 0;
           ReadingTime.formatted := lit "< 1 min" |}
   /\ label (AnalysisResult.wordCountCategory r) = lit "Quick Read")
  /\ (AnalysisResult.sentenceCount r = 0 ->
      AnalysisResult.grade r = 0%float
      /\ AnalysisResult.avgSentenceLength r = 0%float
      /\ label (AnalysisResult.sentenceQuality r) = lit "Too Short").
Proof.
  intros Hr. apply analyzeText_record in Hr
    as (sentences & words & _ & _ & Hwc & Hsc & Hg & Hl & Hrt & Hq & Hcat & Havg & Hlow).
  split.
  - intros H0. rewrite Hwc in H0.
    assert (Hgrade : AnalysisResult.grade r = 0%float).
    { rewrite Hg, H0. unfold calculateFleschKincaid.
      change (num 0 =? 0)%float with true. now rewrite orb_true_r. }
    assert (Hlevel : AnalysisResult.level r = Medium).
    { rewrite Hl, H0. reflexivity. }
    split; [exact Hgrade|]. split; [exact Hlevel|].
    split; [now rewrite Hlow, H0|]. split.
    + rewrite Hrt, H0. reflexivity.
    + rewrite Hcat, H0. reflexivity.
  - intros H0. rewrite Hsc in H0. split; [|split].
    + rewrite Hg, H0. unfold calculateFleschKincaid.
      change (num 0 =? 0)%float with true. reflexivity.
    + rewrite Havg, H0. unfold averageLength. cbn [Nat.ltb Nat.leb].
      vm_compute. reflexivity.
    + rewrite Hq, H0. unfold averageLength. cbn [Nat.ltb Nat.leb].
      vm_compute. reflexivity.
Qed.

Lemma analyzeText_degenerate_witness :
  exists r,
    analyzeText (VStr (lit "12 34 ...")) None = Ok r
    /\ AnalysisResult.grade r = 0%float
    /\ AnalysisResult.level r = Medium
    /\ AnalysisResult.isLowConfidence r = true.
Proof.
  eexists. split; [vm_compute; reflexivity|].
  pose proof (@analyzeText_degenerate (VStr (lit "12 34 ...")) None _
                ltac:(vm_compute; reflexivity)) as [H _].
  destruct (H ltac:(reflexivity)) as (Hg & Hl & Hc & _). auto.
Defined.

(** X4: in a result of [analyzeText] the level follows from the grade and
    the word count alone, whatever the sentence length and the complex
    ratio: Easy means 100 words and a grade of at most 6, Hard means 100
    words and a grade above 12 that below 300 words is not under 15.  The
    low-confidence flag says that there are under 100 words, and the
    reading speed is the one of the level. *)
Theorem analyzeText_level_from_grade
    (text : jsval) (paragraphs : option (list str)) (r : AnalysisResult.t) :
  analyzeText text paragraphs = Ok r ->
  (forall a b,
      AnalysisResult.level r
      = classifyReadability a b (Some (AnalysisResult.grade r))
                            (AnalysisResult.wordCount r))
  /\ (AnalysisResult.level r = Easy ->
      100 <= AnalysisResult.wordCount r
      /\ (AnalysisResult.grade r <=? 6)%float = true)
  /\ (AnalysisResult.level r = Hard ->
      100 <= AnalysisResult.wordCount r
      /\ (AnalysisResult.grade r <=? 12)%float = false
      /\ (AnalysisResult.wordCount r < 300 ->
          (AnalysisResult.grade r <? 15)%float = false))
  /\ (AnalysisResult.isLowConfidence r = true <-> AnalysisResult.wordCount r < 100)
  /\ ReadingTime.wpm (AnalysisResult.readingTime r)
     = (if AnalysisResult.wordCount r =? 0 then 0
        else READING_SPEEDS (AnalysisResult.level r)).
Proof.
  intros Hr. apply analyzeText_record in Hr
    as (sentences & words & _ & _ & Hwc & _ & _ & Hl & Hrt & _ & _ & _ & Hlow).
  rewrite Hwc.
  destruct (classifyReadability_verdicts
              (averageLength (length words) (length sentences))
              (ComplexWords.ratio (identifyComplexWords words))
              (Some (AnalysisResult.grade r)) (length words))
    as [HE HH].
  rewrite <- Hl in HE, HH.
  split; [intros a b; rewrite Hl; apply classifyReadability_grade_only|].
  split; [|split; [|split]].
  - intros E. destruct (HE E) as [H1 H2]. split; [exact H1|]. now apply H2.
  - intros E. destruct (HH E) as (H1 & H2 & _). split; [exact H1|].
    now apply H2.
  - rewrite Hlow. apply Nat.ltb_lt.
  - rewrite Hrt. unfold calculateReadingTime.
    destruct (length words =? 0); reflexivity.
Qed.

Lemma analyzeText_level_from_grade_witness :
  exists r,
    analyzeText (VStr Samples.longParagraph) None = Ok r
    /\ AnalysisResult.level r = Easy
    /\ 100 <= AnalysisResult.wordCount r
    /\ (AnalysisResult.grade r <=? 6)%float = true.
Proof.
  eexists. split; [vm_compute; reflexivity|].
  split; [reflexivity|].
  pose proof (@analyzeText_level_from_grade (VStr Samples.longParagraph) None _
                ltac:(vm_compute; reflexivity)) as (_ & H & _).
  exact (H eq_refl).
Defined.

(* ------------------------------------------------------------------ *)
(** ** The matcher on character classes *)
(* ------------------------------------------------------------------ *)

Lemma rmatch_quant_class (R : Type) (fl : flags) (negated : bool)
    (items : list citem) (min : nat) (max : option nat) (x : mstate)
    (k : mstate -> option R) :
  rmatch fl true (RQuant min max (RClass negated items)) x k
  = repeat_class (class_match fl negated items) k
      (S (min + length (before x) + length (after x))) min max x.
Proof. reflexivity. Qed.

(** A run of class characters matched greedily with nothing after it: the
    match takes a non-empty block [pre] of class characters when [min] is
    1, and fails when the next character is not in the class. *)
Lemma repeat_class_run (p : ascii -> bool) :
  forall fuel min x y,
    repeat_class p (fun z => Some z) fuel min None x = Some y ->
    exists pre,
      after x = pre ++ after y
      /\ before y = rev pre ++ before x
      /\ Forall (fun c => p c = true) pre
      /\ min <= length pre.
Proof.
  induction fuel as [|fuel IH]; intros min x y H; [discriminate|].
  cbn [repeat_class max_is_zero] in H. unfold step, advance in H.
  cbn [clear_caps after before caps] in H.
  destruct (after x) as [|c a] eqn:Ea.
  - destruct (min =? 0) eqn:Em; [|discriminate]. injection H as <-.
    exists []. rewrite Ea. apply Nat.eqb_eq in Em. subst.
    repeat split; auto.
  - destruct (p c) eqn:Ep.
    + assert (Hpos : (pos {| before := c :: before x; after := a;
                             caps := filter (fun q => negb (existsb (Nat.eqb (fst q)) []))
                                            (caps x) |} =? pos x) = false).
      { apply Nat.eqb_neq. unfold pos. cbn [before length]. lia. }
      rewrite Hpos, andb_false_r in H. cbn [option_map] in H.
      destruct (min =? 0) eqn:Em.
      * apply Nat.eqb_eq in Em. subst min. cbn [Nat.pred] in H.
        destruct (repeat_class p (fun z => Some z) fuel 0 None _)
          as [y'|] eqn:E.
        -- injection H as <-.
           destruct (IH _ _ _ E) as (pre & H1 & H2 & H3 & H4).
           cbn [after before] in H1, H2.
           exists (c :: pre). rewrite H1, H2. cbn [app rev length].
           rewrite <- app_assoc. repeat split; auto; lia.
        -- injection H as <-. exists []. rewrite Ea. repeat split; auto.
      * destruct (IH _ _ _ H) as (pre & H1 & H2 & H3 & H4).
        cbn [after before] in H1, H2.
        exists (c :: pre). rewrite H1, H2. cbn [app rev length].
        rewrite <- app_assoc. repeat split; auto; lia.
    + destruct (min =? 0) eqn:Em; [|discriminate]. injection H as <-.
      exists []. rewrite Ea. apply Nat.eqb_eq in Em. subst.
      repeat split; auto.
Qed.

Lemma repeat_class_optional (p : ascii -> bool) (fuel : nat) (x : mstate) :
  repeat_class p (fun z => Some z) (S fuel) 0 None x <> None.
Proof.
  cbn [repeat_class max_is_zero Nat.eqb].
  destruct (step true p (clear_caps [] x) _); discriminate.
Qed.

(** One attempt of [\s+]: it fails where the next character is not a
    space, and where it succeeds it has read a non-empty block of
    spaces. *)
Lemma exec_whitespace (b a : str) :
  match exec_at plain Patterns.whitespace b a with
  | Some y =>
      exists pre, pre <> [] /\ a = pre ++ after y /\ before y = rev pre ++ b
                  /\ Forall (fun c => isSpace c = true) pre
  | None => match a with
            | c :: _ => isSpace c = false
            | [] => True
            end
  end.
Proof.
  unfold exec_at, Patterns.whitespace, rplus, rspace.
  rewrite rmatch_quant_class. cbn [before after].
  destruct (repeat_class _ _ _ 1 None _) as [y|] eqn:E.
  - apply repeat_class_run in E as (pre & H1 & H2 & H3 & H4).
    cbn [after before] in H1, H2. exists pre.
    split; [destruct pre; [cbn in H4; lia|discriminate]|].
    split; [exact H1|]. split; [exact H2|].
    eapply Forall_impl; [|exact H3]. intros c Hc.
    unfold class_match, class_mem in Hc. cbn in Hc.
    now rewrite orb_false_r in Hc.
  - destruct a as [|c a]; [exact I|].
    destruct (isSpace c) eqn:Ec; [|reflexivity]. exfalso.
    cbn [repeat_class max_is_zero Nat.eqb Nat.add] in E.
    unfold step, advance in E. cbn [clear_caps after before caps] in E.
    assert (Hp : class_match plain false [CSpace] c = true).
    { unfold class_match, class_mem. cbn. now rewrite Ec. }
    rewrite Hp in E. cbn [andb Nat.pred option_map] in E.
    revert E. apply repeat_class_optional.
Qed.

(** The pieces of a split at [\s+] hold no space. *)
Lemma split_loop_whitespace :
  forall fuel b a acc piece,
    length a < fuel ->
    Forall nonSpace acc ->
    In piece (split_loop fuel plain Patterns.whitespace b a acc) ->
    Forall nonSpace piece.
Proof.
  induction fuel as [|fuel IH]; intros b a acc piece Hlen Hacc Hin; [lia|].
  destruct a as [|c a]; cbn [split_loop] in Hin.
  - destruct Hin as [<- | []]. now apply Forall_rev.
  - cbn [length] in Hlen.
    pose proof (exec_whitespace b (c :: a)) as Hex.
    destruct (exec_at plain Patterns.whitespace b (c :: a)) as [y|].
    + destruct Hex as (pre & Hne & Ha & Hb & Hsp).
      assert (Hpos : pos y = length b + length pre).
      { unfold pos. rewrite Hb, length_app, length_rev. lia. }
      assert (Hpre : 1 <= length pre) by (destruct pre; [congruence|cbn; lia]).
      replace (pos y =? length b) with false in Hin
        by (symmetry; apply Nat.eqb_neq; lia).
      cbn [andb] in Hin.
      replace (pos y - length b) with (S (length pre - 1)) in Hin by lia.
      cbn [firstn] in Hin.
      destruct Hin as [<- | Hin]; [now apply Forall_rev|].
      apply (IH _ _ _ _) in Hin; [exact Hin| |constructor].
      apply (f_equal (@length ascii)) in Ha. rewrite length_app in Ha.
      cbn [length] in Ha. lia.
    + apply (IH _ _ _ _) in Hin; [exact Hin|lia|].
      constructor; [exact Hex|exact Hacc].
Qed.

Lemma split_re_whitespace (s piece : str) :
  In piece (split_re plain Patterns.whitespace s) -> Forall nonSpace piece.
Proof.
  unfold split_re. destruct s as [|c s].
  - destruct (exec_at plain Patterns.whitespace [] []); intros [<- | []] || intros [].
    constructor.
  - apply split_loop_whitespace; [lia|constructor].
Qed.

(* ------------------------------------------------------------------ *)
(** ** Words *)
(* ------------------------------------------------------------------ *)

Lemma lowerChar_facts (c : ascii) :
  lowerChar (lowerChar c) = lowerChar c
  /\ isUpperAZ (lowerChar c) = false
  /\ isSpace (lowerChar c) = isSpace c.
Proof.
  destruct c as [[] [] [] [] [] [] [] []]; vm_compute; repeat split.
Qed.

Lemma letter_ignoring_case (c : ascii) :
  class_match flag_i false [CRange "a" "z"] c = true ->
  isLowerAZ c || isUpperAZ c = true.
Proof.
  destruct c as [[] [] [] [] [] [] [] []]; vm_compute; intros H;
    congruence.
Qed.

(** [^] does not hold after a character has been read. *)
Lemma test_loop_after_start (a : str) :
  forall c b, test_loop flag_i Patterns.starts_with_letter (c :: b) a = false.
Proof.
  induction a as [|x a IH]; intros c b; cbn [test_loop]; unfold exec_at;
    cbn; [reflexivity|apply IH].
Qed.

Lemma test_starts_with_letter (w : str) :
  test flag_i Patterns.starts_with_letter w = true ->
  exists c rest, w = c :: rest /\ isLowerAZ c || isUpperAZ c = true.
Proof.
  unfold test. destruct w as [|c rest]; cbn [test_loop]; unfold exec_at.
  - cbn. discriminate.
  - cbn [Patterns.starts_with_letter rseq rmatch at_bol before step advance after].
    destruct (class_match flag_i false [CRange "a" "z"] c) eqn:E.
    + intros _. exists c, rest. split; [reflexivity|].
      now apply letter_ignoring_case.
    + now rewrite test_loop_after_start.
Qed.

Lemma In_skipn {A : Type} (x : A) (n : nat) (l : list A) :
  In x (skipn n l) -> In x l.
Proof.
  intros H. rewrite <- (firstn_skipn n l). apply in_or_app. now right.
Qed.

(** The characters of the pieces of a split are characters of the
    string. *)
Lemma split_aux_subset (sep : str) :
  forall fuel s acc p x,
    In p (split_aux fuel sep s acc) -> In x p -> In x acc \/ In x s.
Proof.
  induction fuel as [|fuel IH]; intros s acc p x Hp Hx; cbn [split_aux] in Hp.
  - destruct Hp as [<- | []]. apply in_app_or in Hx as [Hx | Hx]; auto.
    left. now apply in_rev.
  - destruct s as [|c s].
    + destruct Hp as [<- | []]. left. now apply in_rev.
    + destruct (startsWith sep (c :: s)).
      * destruct Hp as [<- | Hp]; [left; now apply in_rev|].
        destruct (IH _ _ _ _ Hp Hx) as [[] | H]. right.
        now apply In_skipn in H.
      * destruct (IH _ _ _ _ Hp Hx) as [[<- | H] | H]; cbn [In]; auto.
Qed.

Lemma split_subset (sep s p : str) (x : ascii) :
  In p (split sep s) -> In x p -> In x s.
Proof.
  unfold split. intros Hp Hx.
  destruct (split_aux_subset _ _ _ _ _ _ Hp Hx) as [[] | H]. exact H.
Qed.

Lemma trimStart_nonSpace (s : str) :
  (forall c, In c s -> isSpace c = false) -> trimStart s = s.
Proof.
  destruct s as [|c s]; [reflexivity|]. intros H. cbn [trimStart].
  now rewrite (H c (or_introl eq_refl)).
Qed.

Lemma trim_nonSpace (s : str) :
  (forall c, In c s -> isSpace c = false) -> trim s = s.
Proof.
  intros H. unfold trim, trimEnd. rewrite (trimStart_nonSpace s H).
  rewrite trimStart_nonSpace; [apply rev_involutive|].
  intros c Hc. apply H. now apply in_rev.
Qed.

(** What [splitCompound] returns is in lower case and keeps a hyphen only
    beside an apostrophe. *)
Lemma splitCompound_parts (word w : str) :
  In w (splitCompound word) ->
  (forall c, In c w -> exists c', In c' word /\ c = lowerChar c')
  /\ (In "-"%char w -> In "'"%char w).
Proof.
  unfold splitCompound.
  assert (Hsub : forall c, In c (trim (toLowerCase word)) ->
                           exists c', In c' word /\ c = lowerChar c').
  { intros c Hc. apply In_trim in Hc. unfold toLowerCase in Hc.
    apply in_map_iff in Hc as (c' & <- & Hc'). eauto. }
  destruct (includes (lit "-") (trim (toLowerCase word))) eqn:Eh;
    destruct (includes (lit "'") (trim (toLowerCase word))) eqn:Ea;
    cbn [andb negb].
  - intros [<- | []]. split; [exact Hsub|]. intros _.
    now apply (proj1 (includes_single _ _)).
  - intros Hw. apply filter_In in Hw as [Hw _]. split.
    + intros c Hc. apply Hsub. exact (split_subset _ _ _ _ Hw Hc).
    + intros H. destruct (split_pieces _ _ _ Hw H).
  - intros [<- | []]. split; [exact Hsub|]. intros _.
    now apply (proj1 (includes_single _ _)).
  - intros [<- | []]. split; [exact Hsub|]. intros H.
    apply (proj2 (includes_single _ _)) in H. cbn in Eh, H. congruence.
Qed.

(** What the filter and the split of [extractWords] leave. *)
Lemma In_extractWords (text w : str) :
  In w (extractWords text) ->
  2 <= length w
  /\ (exists c rest, w = c :: rest /\ isLowerAZ c = true)
  /\ toLowerCase w = w
  /\ (forall c, In c w -> isSpace c = false)
  /\ (In "-"%char w -> In "'"%char w).
Proof.
  unfold extractWords. destruct (length text =? 0); [intros []|].
  intros Hw. apply filter_In in Hw as [Hw Hword].
  apply in_flat_map in Hw as (x & Hx & Hw).
  apply split_re_whitespace in Hx.
  destruct (splitCompound_parts _ _ Hw) as [Hlow Hhyphen].
  assert (Hup : forall c, In c w -> lowerChar c = c /\ isUpperAZ c = false
                                    /\ isSpace c = false).
  { intros c Hc. destruct (Hlow c Hc) as (c' & Hc' & ->).
    destruct (lowerChar_facts c') as (H1 & H2 & H3).
    split; [exact H1|]. split; [exact H2|]. rewrite H3.
    rewrite Forall_forall in Hx. exact (Hx c' Hc'). }
  unfold isWord in Hword.
  destruct (length w <? 2) eqn:E2; [discriminate|]. apply Nat.ltb_ge in E2.
  destruct (test flag_i Patterns.starts_with_letter w) eqn:Et;
    [|discriminate].
  apply test_starts_with_letter in Et as (c & rest & -> & Hc).
  split; [exact E2|]. split; [|split; [|split]].
  - exists c, rest. split; [reflexivity|].
    destruct (Hup c (or_introl eq_refl)) as (_ & H & _).
    rewrite H, orb_false_r in Hc. exact Hc.
  - unfold toLowerCase. rewrite <- (map_id (c :: rest)) at 2.
    apply map_ext_in. intros a Ha. now apply Hup.
  - intros a Ha. now apply Hup.
  - exact Hhyphen.
Qed.

(** X5: every word returned by [extractWords] has at least 2 characters,
    starts with a letter a-z, is its own lower-case form, holds no white
    space, and holds a hyphen only if it holds an apostrophe. *)
Theorem extractWords_tokens (text w : str) :
  In w (extractWords text) ->
  2 <= length w
  /\ (exists c rest, w = c :: rest /\ isLowerAZ c = true)
  /\ toLowerCase w = w
  /\ (forall c, In c w -> isSpace c = false)
  /\ (In "-"%char w -> In "'"%char w).
Proof. exact (@In_extractWords text w). Qed.

Lemma extractWords_tokens_witness :
  2 <= length (lit "smith's")
  /\ (exists c rest, lit "smith's" = c :: rest /\ isLowerAZ c = true)
  /\ toLowerCase (lit "smith's") = lit "smith's"
  /\ (forall c, In c (lit "smith's") -> isSpace c = false)
  /\ (In "-"%char (lit "smith's") -> In "'"%char (lit "smith's")).
Proof.
  apply (@extractWords_tokens (lit "Dr. Smith's dog") (lit "smith's")).
  vm_compute. right; left. reflexivity.
Defined.

Lemma inherited_lowercase_word (w : str) :
  In w Object_prototype_keys ->
  toLowerCase w = w ->
  (exists c rest, w = c :: rest /\ isLowerAZ c = true) ->
  w = lit "constructor".
Proof.
  intros Hin Hlow (c & rest & E & Hc).
  unfold Object_prototype_keys in Hin. cbn [map In] in Hin.
  repeat (destruct Hin as [<- | Hin];
          [first [reflexivity
                 | vm_compute in Hlow; discriminate Hlow
                 | injection E as <- _; vm_compute in Hc; discriminate Hc]|]).
  destruct Hin.
Qed.

(** X6: a word returned by [extractWords] that holds no hyphen has a
    syllable count of at least 1, with one exception: for the word
    "constructor" the lookup in the override table finds the property that
    every object inherits, and [countSyllables] returns that instead of a
    count. *)
Theorem extractWords_syllables (text w : str) :
  In w (extractWords text) ->
  ~ In "-"%char w ->
  (w = lit "constructor" /\ countSyllables w = JOther)
  \/ (w <> lit "constructor"
      /\ exists n, countSyllables w = JNum n /\ 1 <= n).
Proof.
  intros Hw Hh.
  destruct (In_extractWords _ _ Hw) as (Hlen & Hfirst & Hlow & Hsp & _).
  destruct (list_eq_dec ascii_dec w (lit "constructor")) as [-> | Hne].
  - left. split; [reflexivity|]. vm_compute. reflexivity.
  - right. split; [exact Hne|].
    assert (Hplain : plainLookup w).
    { unfold plainLookup. rewrite Hlow, (trim_nonSpace _ Hsp).
      destruct (str_mem w Object_prototype_keys) eqn:E; [|reflexivity].
      exfalso. apply Hne. apply str_mem_In in E.
      now apply inherited_lowercase_word. }
    destruct (countSyllables_no_hyphen Hh Hplain) as (n & Hn & Hpos).
    exists n. split; [exact Hn|]. apply Hpos. intros ->. cbn in Hlen. lia.
Qed.

Lemma extractWords_syllables_witness :
  (lit "smith" = lit "constructor" /\ countSyllables (lit "smith") = JOther)
  \/ (lit "smith" <> lit "constructor"
      /\ exists n, countSyllables (lit "smith") = JNum n /\ 1 <= n).
Proof.
  apply (@extractWords_syllables (lit "Dr. Smith went home") (lit "smith")).
  - vm_compute. right; left. reflexivity.
  - intros H. vm_compute in H. repeat destruct H as [H | H]; discriminate || exact H.
Defined.

(* ------------------------------------------------------------------ *)
(** ** Numbers that are not numbers *)
(* ------------------------------------------------------------------ *)

Lemma Prim2SF_nan (x : float) : Prim2SF x = S754_nan -> x = nan.
Proof. intros H. apply Prim2SF_inj. rewrite H. reflexivity. Qed.

Lemma div_nan_l (y : float) : (nan / y)%float = nan.
Proof.
  apply Prim2SF_nan. rewrite FloatAxioms.div_spec. change (Prim2SF nan) with S754_nan.
  reflexivity.
Qed.

Lemma mul_nan_l (y : float) : (nan * y)%float = nan.
Proof.
  apply Prim2SF_nan. rewrite FloatAxioms.mul_spec. change (Prim2SF nan) with S754_nan.
  reflexivity.
Qed.

Lemma mul_nan_r (x : float) : (x * nan)%float = nan.
Proof.
  apply Prim2SF_nan. rewrite FloatAxioms.mul_spec. change (Prim2SF nan) with S754_nan.
  unfold SF64mul, SFmul. now destruct (Prim2SF x).
Qed.

Lemma add_nan_r (x : float) : (x + nan)%float = nan.
Proof.
  apply Prim2SF_nan. rewrite FloatAxioms.add_spec. change (Prim2SF nan) with S754_nan.
  unfold SF64add, SFadd. now destruct (Prim2SF x).
Qed.

Lemma sub_nan_l (y : float) : (nan - y)%float = nan.
Proof.
  apply Prim2SF_nan. rewrite FloatAxioms.sub_spec. change (Prim2SF nan) with S754_nan.
  reflexivity.
Qed.

(** A grade computed from a syllable total that is not a number. *)
Lemma calculateFleschKincaid_nan (w s : float) :
  (s =? 0)%float = false -> (w =? 0)%float = false ->
  calculateFleschKincaid w s nan = nan.
Proof.
  intros Hs Hw. unfold calculateFleschKincaid. rewrite Hs, Hw. cbn [orb].
  rewrite div_nan_l, mul_nan_r, add_nan_r, sub_nan_l, mul_nan_l.
  change (Math_round nan) with nan. rewrite div_nan_l. reflexivity.
Qed.

Lemma all_pos_sound (bits : nat) :
  forall f, all_pos bits f = true ->
            forall p, (Z.pos p < 2 ^ Z.of_nat (S bits))%Z -> f p = true.
Proof.
  induction bits as [|bits IH]; intros f H p Hp; cbn [all_pos] in H.
  - rewrite andb_true_r in H. change (2 ^ Z.of_nat 1)%Z with 2%Z in Hp.
    destruct p; try lia. exact H.
  - apply andb_true_iff in H as [H1 H]. apply andb_true_iff in H as [H2 H3].
    rewrite Nat2Z.inj_succ, Z.pow_succ_r in Hp by lia.
    destruct p as [p|p|]; [| |exact H1].
    + apply (IH _ H3). lia.
    + apply (IH _ H2). lia.
Qed.

(** The number of a count from 1 to 65535 is not zero. *)
Lemma num_nonzero (n : nat) :
  0 < n -> (Z.of_nat n < 65536)%Z -> (num n =? 0)%float = false.
Proof.
  intros H0 Hn. unfold num.
  destruct (Z.of_nat n) as [|p|p] eqn:E; try lia.
  assert (Hall : all_pos 15
            (fun p => negb (of_uint63 (Uint63.of_Z (Z.pos p)) =? 0)%float) = true)
    by (vm_compute; reflexivity).
  pose proof (@all_pos_sound _ _ Hall p) as Hp.
  change (2 ^ Z.of_nat 16)%Z with 65536%Z in Hp.
  apply negb_true_iff. apply Hp. lia.
Qed.

Lemma sum_with_inherited (words : list str) :
  forall acc,
    (acc = JOther \/ exists w, In w words /\ countSyllables w = JOther) ->
    fold_left (fun sum word => jsadd sum (countSyllables word)) words acc = JOther.
Proof.
  induction words as [|x words IH]; intros acc H; cbn [fold_left].
  - destruct H as [H | (w & [] & _)]. exact H.
  - apply IH. destruct H as [-> | (w & [<- | Hw] & E)].
    + left. reflexivity.
    + left. rewrite E. now destruct acc.
    + right. eauto.
Qed.

(** X7: when one of the extracted words has no syllable count (the word
    "constructor"), the syllable total is not a number and, for a text
    with a sentence and fewer than 65536 words and sentences, the grade of
    the result is NaN; its level is Hard from 100 words on and Medium
    below. *)
Theorem analyzeText_grade_not_a_number
    (text : jsval) (paragraphs : option (list str)) (r : AnalysisResult.t)
    (words : list str) (w : str) :
  analyzeText text paragraphs = Ok r ->
  extractWords_any text = Ok words ->
  In w words ->
  countSyllables w = JOther ->
  0 < AnalysisResult.sentenceCount r ->
  (Z.of_nat (AnalysisResult.sentenceCount r) < 65536)%Z ->
  (Z.of_nat (AnalysisResult.wordCount r) < 65536)%Z ->
  AnalysisResult.grade r = nan
  /\ (100 <= AnalysisResult.wordCount r -> AnalysisResult.level r = Hard)
  /\ (AnalysisResult.wordCount r < 100 -> AnalysisResult.level r = Medium).
Proof.
  intros Hr Hw Hin Hsyl Hs0 Hs Hwc.
  apply analyzeText_record in Hr
    as (sentences & words' & _ & Hw' & Ewc & Esc & Hg & Hl & _).
  assert (words' = words) by congruence. subst words'.
  rewrite Esc in Hs0, Hs. rewrite Ewc in Hwc.
  assert (Hgrade : AnalysisResult.grade r = nan).
  { rewrite Hg, sum_with_inherited by eauto. cbn [toNumber].
    apply calculateFleschKincaid_nan; apply num_nonzero; try lia.
    destruct words; [destruct Hin|cbn; lia]. }
  split; [exact Hgrade|]. rewrite Hl, Hgrade, Ewc.
  unfold classifyReadability. split.
  - intros H. replace (length words <? 100) with false
      by (symmetry; apply Nat.ltb_ge; exact H).
    change (nan <=? 6)%float with false. change (nan <=? 12)%float with false.
    change (nan <? 15)%float with false. cbn [Level_eqb].
    now rewrite andb_false_r.
  - intros H. apply Nat.ltb_lt in H. now rewrite H.
Qed.

Lemma analyzeText_grade_not_a_number_witness :
  exists r,
    analyzeText (VStr (lit "The constructor went home.")) None = Ok r
    /\ AnalysisResult.grade r = nan.
Proof.
  eexists. split; [vm_compute; reflexivity|].
  apply (@analyzeText_grade_not_a_number
           (VStr (lit "The constructor went home.")) None _
           (extractWords (lit "The constructor went home."))
           (lit "constructor")).
  - vm_compute. reflexivity.
  - reflexivity.
  - vm_compute. right; left. reflexivity.
  - vm_compute. reflexivity.
  - vm_compute. lia.
  - vm_compute. reflexivity.
  - vm_compute. reflexivity.
Defined.

(* ------------------------------------------------------------------ *)
(** ** Sentences *)
(* ------------------------------------------------------------------ *)

Lemma trimStart_blank (s : str) :
  (forall c, In c s -> isSpace c = true) -> trimStart s = [].
Proof.
  induction s as [|c s IH]; intros H; cbn [trimStart]; [reflexivity|].
  rewrite (H c (or_introl eq_refl)). apply IH. intros x Hx. apply H. now right.
Qed.

Lemma trimStart_idempotent (s : str) : trimStart (trimStart s) = trimStart s.
Proof.
  induction s as [|c s IH]; cbn [trimStart]; [reflexivity|].
  destruct (isSpace c) eqn:E; [exact IH|]. cbn [trimStart]. now rewrite E.
Qed.

Lemma trimStart_app_nonSpace (l m : str) (c : ascii) :
  isSpace c = false -> trimStart (l ++ c :: m) = trimStart l ++ c :: m.
Proof.
  intros Hc. induction l as [|x l IH]; cbn [app trimStart].
  - now rewrite Hc.
  - destruct (isSpace x); [exact IH|reflexivity].
Qed.

(** What [trim] returns has nothing left to trim. *)
Lemma trim_idempotent (s : str) : trim (trim s) = trim s.
Proof.
  unfold trim, trimEnd.
  destruct (trimStart s) as [|c t] eqn:E; [reflexivity|].
  assert (Hc : isSpace c = false).
  { pose proof (trimStart_idempotent s) as H. rewrite E in H.
    cbn [trimStart] in H. destruct (isSpace c); [|reflexivity].
    exfalso. apply (f_equal (@length ascii)) in H.
    pose proof (length_trimStart t). cbn [length] in H. lia. }
  cbn [rev]. rewrite (@trimStart_app_nonSpace (rev t) [] c Hc).
  rewrite rev_app_distr. cbn [rev app trimStart]. rewrite Hc.
  cbn [rev]. rewrite rev_involutive.
  rewrite (@trimStart_app_nonSpace _ [] c Hc), trimStart_idempotent.
  rewrite rev_app_distr. reflexivity.
Qed.

Lemma trim_blank (s : str) :
  (forall c, In c s -> isSpace c = true) -> trim s = [].
Proof.
  intros H. unfold trim, trimEnd. now rewrite (trimStart_blank s H).
Qed.

Lemma restoreMarkers_trimmed (s : str) : trim (restoreMarkers s) = restoreMarkers s.
Proof. unfold restoreMarkers. apply trim_idempotent. Qed.

Lemma isSentence_long (s : str) : isSentence s = true -> 5 < length s.
Proof.
  unfold isSentence. intros H. apply andb_true_iff in H as [H _].
  now apply Nat.ltb_lt.
Qed.

Lemma extractSentences_blank (text : str) :
  trim text = [] -> extractSentences text = [].
Proof.
  intros H. unfold extractSentences. rewrite H.
  change (length (@nil ascii) =? 0) with true.
  rewrite orb_true_r. reflexivity.
Qed.

Lemma In_extractSentences (text s : str) :
  In s (extractSentences text) ->
  isSentence s = true
  /\ exists x, In x (splitSentences (protectText text)) /\ s = restoreMarkers x.
Proof.
  unfold extractSentences.
  destruct ((length text =? 0) || (length (trim text) =? 0)); [intros []|].
  cbv zeta. intros Hs.
  pose proof (proj1 (filter_In _ _ _) Hs) as [Hs' Hok].
  split; [exact Hok|].
  pose proof (proj1 (in_map_iff _ _ _) Hs') as (x & Hx & Hin).
  exists x. auto.
Qed.

(** X8: [extractSentences] returns nothing for a text of white space only
    (the empty text included), and every sentence it returns is trimmed,
    longer than 5 characters and passes the three-word test. *)
Theorem extractSentences_shape (text : str) :
  ((forall c, In c text -> isSpace c = true) -> extractSentences text = [])
  /\ (forall s, In s (extractSentences text) ->
                5 < length s /\ trim s = s /\ isSentence s = true).
Proof.
  split.
  - intros H. apply extractSentences_blank. now apply trim_blank.
  - intros s Hs. pose proof (In_extractSentences _ _ Hs) as (Hok & x & _ & ->).
    split; [now apply isSentence_long|].
    split; [apply restoreMarkers_trimmed|exact Hok].
Qed.

(* ------------------------------------------------------------------ *)
(** ** Clauses *)
(* ------------------------------------------------------------------ *)

(** Counting the matches of a character class counts the characters in
    it. *)
Lemma match_count_class (items : list citem) :
  forall fuel b a,
    length a < fuel ->
    match_count_loop fuel plain (RClass false items) b a
    = length (filter (class_mem items) a).
Proof.
  induction fuel as [|fuel IH]; intros b a Hlen; [lia|].
  destruct a as [|c a]; [reflexivity|]. cbn [length] in Hlen.
  cbn [match_count_loop filter]. unfold exec_at.
  cbn [rmatch step advance after before caps].
  unfold class_match. cbn [ignoreCase plain].
  destruct (class_mem items c).
  - unfold pos. cbn [before after length].
    replace (S (length b) - length b) with 1 by lia. cbn [firstn length].
    rewrite IH by lia. reflexivity.
  - rewrite IH by lia. reflexivity.
Qed.

Lemma fold_left_add_le {A : Type} (f : A -> nat) (l : list A) :
  forall n, n <= fold_left (fun acc x => acc + f x) l n.
Proof.
  induction l as [|x l IH]; intros n; cbn [fold_left]; [lia|].
  etransitivity; [|apply IH]. lia.
Qed.

(** X9: every sentence counts at least one clause, and one more for each
    semicolon or colon in it. *)
Theorem countClauses_lower_bound (sentence : str) :
  1 + length (filter (fun c => char_eqb ";" c || char_eqb ":" c) sentence)
  <= countClauses sentence.
Proof.
  unfold countClauses, match_count, Patterns.strong_punctuation, rset.
  cbn [lit list_ascii_of_string map].
  rewrite match_count_class by lia.
  replace (filter (class_mem [CChar ";"; CChar ":"]) sentence)
    with (filter (fun c => char_eqb ";" c || char_eqb ":" c) sentence).
  2:{ apply filter_ext. intros c. unfold class_mem. cbn.
      now rewrite orb_false_r. }
  set (k := length (filter _ sentence)).
  set (base := if 0 <? k then 1 + k else 1).
  assert (Hbase : 1 + k <= base).
  { subst base. destruct k; cbn; lia. }
  match goal with
  | |- _ <= (if ?c then ?x + _ else ?x) =>
      assert (Hfold : base <= x) by apply fold_left_add_le;
      destruct c; lia
  end.
Qed.

(* ------------------------------------------------------------------ *)
(** ** The order of the issues *)
(* ------------------------------------------------------------------ *)

Lemma StronglySorted_app {A : Type} (R : A -> A -> Prop) (l1 l2 : list A) :
  StronglySorted R l1 -> StronglySorted R l2 ->
  (forall x y, In x l1 -> In y l2 -> R x y) ->
  StronglySorted R (l1 ++ l2).
Proof.
  intros H1 H2 H. induction H1 as [|a l1 Hs IH Ha]; cbn [app]; [exact H2|].
  constructor.
  - apply IH. intros x y Hx Hy. apply H; [now right|exact Hy].
  - apply Forall_app. split; [exact Ha|].
    apply Forall_forall. intros y Hy. apply H; [now left|exact Hy].
Qed.

(** A strictly increasing list of numbers taken from [n] consecutive ones
    has at most [n] entries. *)
Lemma increasing_length (l : list nat) :
  forall g n,
    StronglySorted lt l -> Forall (fun i => g <= i < g + n) l -> length l <= n.
Proof.
  induction l as [|x l IH]; intros g n Hs Hb; cbn [length]; [lia|].
  inversion Hs as [|? ? Hs' Hlt]; subst. inversion Hb as [|? ? Hx Hb']; subst.
  destruct n as [|n]; [lia|].
  enough (length l <= n) by lia.
  apply (IH (S g) n Hs').
  apply Forall_forall. intros i Hi.
  pose proof (proj1 (Forall_forall _ _) Hlt i Hi).
  pose proof (proj1 (Forall_forall _ _) Hb' i Hi). cbn beta in *. lia.
Qed.

Lemma nth_error_flat_map {A B : Type} (f : A -> list B) (l : list A) :
  forall j x k y,
    nth_error l j = Some x -> nth_error (f x) k = Some y ->
    nth_error (flat_map f l) (length (flat_map f (firstn j l)) + k) = Some y.
Proof.
  induction l as [|a l IH]; intros j x k y Hj Hk; [destruct j; discriminate|].
  destruct j as [|j]; cbn [nth_error firstn flat_map length] in *.
  - injection Hj as ->. cbn [Nat.add]. rewrite nth_error_app1; [exact Hk|].
    apply nth_error_Some. congruence.
  - rewrite length_app, <- Nat.add_assoc, nth_error_app2 by lia.
    replace (length (f a) + _ - length (f a))
      with (length (flat_map f (firstn j l)) + k) by lia.
    eapply IH; eauto.
Qed.

(** The inner loop appends its issues in the order of the sentences, with
    the counter values it passes through. *)
Lemma visitSentences_order (p : nat) (sents : list str) :
  forall start acc g,
  exists l,
    forEach_from start (visitSentence p) sents (acc, g)
    = (acc ++ l, g + length sents)
    /\ StronglySorted lt (map ComplexSentence.index l)
    /\ Forall (fun x => g <= ComplexSentence.index x < g + length sents
                        /\ ComplexSentence.paragraphIndex x = p) l.
Proof.
  induction sents as [|s sents IH]; intros start acc g.
  - exists []. cbn [forEach_from length map]. rewrite app_nil_r, Nat.add_0_r.
    repeat split; constructor.
  - cbn [forEach_from length]. rewrite visitSentence_step.
    destruct ((3 <=? countClauses s) && (20 <=? length (extractWords s))).
    + destruct (IH (S start) (acc ++ [complexIssue s g p]) (S g))
        as (l & -> & Hs & Hb).
      exists (complexIssue s g p :: l). rewrite <- app_assoc. cbn [app map].
      split; [f_equal; lia|]. split.
      * constructor; [exact Hs|]. apply Forall_map.
        eapply Forall_impl; [|exact Hb]. cbn. intros x Hx. lia.
      * constructor; [cbn; lia|].
        eapply Forall_impl; [|exact Hb]. cbn. intros x Hx. lia.
    + destruct (IH (S start) acc (S g)) as (l & -> & Hs & Hb).
      exists l. split; [f_equal; lia|]. split; [exact Hs|].
      eapply Forall_impl; [|exact Hb]. cbn. intros x Hx. lia.
Qed.

(** The outer loop does the same over the paragraphs. *)
Lemma visitParagraphs_order (ps : list str) :
  forall start acc g,
  exists l,
    forEach_from start visitParagraph ps (acc, g)
    = (acc ++ l, g + length (flat_map extractSentences ps))
    /\ StronglySorted lt (map ComplexSentence.index l)
    /\ StronglySorted le (map ComplexSentence.paragraphIndex l)
    /\ Forall (fun x =>
                 g <= ComplexSentence.index x
                      < g + length (flat_map extractSentences ps)
                 /\ start <= ComplexSentence.paragraphIndex x) l.
Proof.
  induction ps as [|para ps IH]; intros start acc g.
  - exists []. cbn [forEach_from flat_map length map].
    rewrite app_nil_r, Nat.add_0_r. repeat split; constructor.
  - cbn [forEach_from flat_map]. unfold visitParagraph at 2. unfold forEach.
    destruct (visitSentences_order start (extractSentences para) 0 acc g)
      as (l1 & -> & Hs1 & Hb1).
    destruct (IH (S start) (acc ++ l1) (g + length (extractSentences para)))
      as (l2 & -> & Hs2 & Hp2 & Hb2).
    exists (l1 ++ l2). rewrite <- app_assoc, length_app, Nat.add_assoc.
    split; [reflexivity|].
    rewrite !map_app.
    pose proof (proj1 (Forall_forall _ _) Hb1) as B1.
    pose proof (proj1 (Forall_forall _ _) Hb2) as B2.
    split; [|split].
    + apply StronglySorted_app; [exact Hs1|exact Hs2|].
      intros x y Hx Hy.
      apply in_map_iff in Hx as (a & <- & Ha).
      apply in_map_iff in Hy as (b & <- & Hb).
      specialize (B1 a Ha). specialize (B2 b Hb). cbn beta in *. lia.
    + apply StronglySorted_app; [|exact Hp2|].
      * clear - Hb1. induction Hb1 as [|a l Ha Hl IHl]; cbn [map]; constructor.
        -- exact IHl.
        -- apply Forall_map. eapply Forall_impl; [|exact Hl]. cbn.
           intros x Hx. lia.
      * intros x y Hx Hy.
        apply in_map_iff in Hx as (a & <- & Ha).
        apply in_map_iff in Hy as (b & <- & Hb).
        specialize (B1 a Ha). specialize (B2 b Hb). cbn beta in *. lia.
    + apply Forall_app. split.
      * eapply Forall_impl; [|exact Hb1]. cbn. intros x Hx. lia.
      * eapply Forall_impl; [|exact Hb2]. cbn. intros x Hx. lia.
Qed.

(** X10: the complex sentences come out in document order.  [index] is the
    position of the sentence in the sequence of all sentences of all
    paragraphs and [paragraphIndex] the position of a paragraph that holds
    it; the indices strictly increase along the result, the paragraph
    indices never decrease, and there are no more issues than
    sentences. *)
Theorem identifyComplexSentences_document_order (paragraphs : list str) :
  let sentences := flat_map extractSentences paragraphs in
  let issues := identifyComplexSentences paragraphs in
  (forall issue, In issue issues ->
     nth_error sentences (ComplexSentence.index issue)
     = Some (ComplexSentence.text issue)
     /\ exists para,
          nth_error paragraphs (ComplexSentence.paragraphIndex issue) = Some para
          /\ In (ComplexSentence.text issue) (extractSentences para))
  /\ StronglySorted lt (map ComplexSentence.index issues)
  /\ StronglySorted le (map ComplexSentence.paragraphIndex issues)
  /\ length issues <= length sentences.
Proof.
  intros sentences issues. split.
  - intros issue Hin.
    apply (proj1 (In_identifyComplexSentences _ _)) in Hin
      as (j & para & k & s & Hj & Hk & _ & ->).
    cbn [complexIssue ComplexSentence.index ComplexSentence.text
         ComplexSentence.paragraphIndex].
    split.
    + exact (nth_error_flat_map extractSentences paragraphs j k Hj Hk).
    + exists para. split; [exact Hj|]. eapply nth_error_In; eauto.
  - subst issues. unfold identifyComplexSentences, forEach.
    destruct (visitParagraphs_order paragraphs 0 [] 0) as (l & -> & Hs & Hp & Hb).
    cbn [fst app]. split; [exact Hs|]. split; [exact Hp|].
    rewrite <- (length_map ComplexSentence.index).
    apply (@increasing_length _ 0 (length sentences) Hs).
    apply Forall_map. eapply Forall_impl; [|exact Hb]. cbn. intros x Hx.
    subst sentences. lia.
Qed.

(** X11: the dense paragraphs come out in document order, at most one per
    paragraph, each with the counts of its own text; and a paragraph of
    fewer than 80 words is never reported. *)
Theorem identifyDenseParagraphs_document_order (paragraphs : list str) :
  let issues := identifyDenseParagraphs paragraphs in
  StronglySorted lt (map DenseParagraph.index issues)
  /\ length issues <= length paragraphs
  /\ forall d, In d issues ->
       DenseParagraph.wordCount d = length (extractWords (DenseParagraph.text d))
       /\ DenseParagraph.sentenceCount d
          = length (extractSentences (DenseParagraph.text d))
       /\ 80 <= DenseParagraph.wordCount d
       /\ DenseParagraph.isDense d = true.
Proof.
  intros issues. subst issues. split; [|split].
  - exact (proj1 (describe_indices_increasing paragraphs 0)).
  - unfold identifyDenseParagraphs, mapi.
    etransitivity; [apply filter_length_le|].
    generalize 0. induction paragraphs as [|p ps IH]; intros n; cbn; [lia|].
    specialize (IH (S n)). lia.
  - intros d Hd.
    pose proof (proj1 (In_identifyDenseParagraphs _ _) Hd) as (i & para & _ & -> & Ht).
    cbn [describeParagraph DenseParagraph.wordCount DenseParagraph.text
         DenseParagraph.sentenceCount].
    split; [reflexivity|]. split; [reflexivity|]. split.
    + unfold denseTriggers in Ht. lia.
    + apply (proj2 (describeParagraph_isDense para i)). exact Ht.
Qed.

(* ------------------------------------------------------------------ *)
(** ** Reading time *)
(* ------------------------------------------------------------------ *)

Lemma readingTimeAgrees_below_4096 (level : Level) :
  all_pos 11 (readingTimeAgrees level) = true.
Proof. destruct level; vm_compute; reflexivity. Qed.

Lemma wholeMinutes_Z (wordCount speed : nat) :
  Z.of_nat (wholeMinutes wordCount speed)
  = ((2 * Z.of_nat wordCount + Z.of_nat speed) / (2 * Z.of_nat speed))%Z.
Proof.
  unfold wholeMinutes.
  rewrite Nat2Z.inj_div, Nat2Z.inj_add, !Nat2Z.inj_mul. reflexivity.
Qed.

(** X12: for fewer than 4096 words the reading time is the word count
    divided by the speed of the level and rounded to whole minutes, a half
    going up; it is shown as "< 1 min" when that is zero, as "1 min" when
    it is one and as "<n> mins" otherwise; the speed reported is that of
    the level, or 0 for no words. *)
Theorem calculateReadingTime_whole_minutes (wordCount : nat) (level : Level) :
  (Z.of_nat wordCount < 4096)%Z ->
  let m := wholeMinutes wordCount (READING_SPEEDS level) in
  let r := calculateReadingTime wordCount level in
  ReadingTime.minutes r = num m
  /\ ReadingTime.wpm r = (if wordCount =? 0 then 0 else READING_SPEEDS level)
  /\ ReadingTime.formatted r
     = (if m =? 0 then lit "< 1 min"
        else if m =? 1 then lit "1 min"
        else show_nat m ++ lit " mins").
Proof.
  intros Hn m r. subst r. unfold calculateReadingTime.
  destruct (wordCount =? 0) eqn:E0.
  - apply Nat.eqb_eq in E0. subst wordCount m.
    destruct level; vm_compute; auto.
  - apply Nat.eqb_neq in E0.
    cbn [ReadingTime.minutes ReadingTime.wpm ReadingTime.formatted].
    pose proof (wholeMinutes_Z wordCount (READING_SPEEDS level)) as Hm.
    fold m in Hm.
    destruct (Z.of_nat wordCount) as [|p|p] eqn:E; try lia.
    pose proof (@all_pos_sound _ _ (readingTimeAgrees_below_4096 level) p) as H.
    change (2 ^ Z.of_nat 12)%Z with 4096%Z in H. specialize (H Hn).
    unfold readingTimeAgrees in H. cbv zeta in H. rewrite <- Hm in H.
    rewrite Nat2Z.id in H.
    apply andb_true_iff in H as [H H4]. apply andb_true_iff in H as [H H3].
    apply andb_true_iff in H as [H1 H2].
    apply FloatAxioms.Leibniz.eqb_spec in H1.
    apply Bool.eqb_prop in H2, H3. apply str_eqb_eq in H4.
    unfold num in *. rewrite E.
    split; [exact H1|]. split; [reflexivity|].
    rewrite H2, H3, H4.
    replace (Z.of_nat m =? 0)%Z with (m =? 0)
      by (destruct (Nat.eqb_spec m 0), (Z.eqb_spec (Z.of_nat m) 0); lia).
    replace (Z.of_nat m =? 1)%Z with (m =? 1)
      by (destruct (Nat.eqb_spec m 1), (Z.eqb_spec (Z.of_nat m) 1); lia).
    reflexivity.
Qed.

Lemma calculateReadingTime_whole_minutes_witness :
  ReadingTime.formatted (calculateReadingTime 500 Medium) = lit "2 mins".
Proof.
  exact (proj2 (proj2 (calculateReadingTime_whole_minutes 500 Medium eq_refl))).
Defined.

(* ------------------------------------------------------------------ *)
(** ** The alphabet of the words *)
(* ------------------------------------------------------------------ *)

(** Replacing the matches of a character class replaces the characters in
    it, one by one. *)
Lemma replace_loop_class (negated : bool) (items : list citem) (by_ : str) :
  forall fuel b a,
    length a < fuel ->
    replace_loop fuel plain (RClass negated items) (fun _ _ => by_) b a
    = flat_map (fun c => if class_match plain negated items c then by_ else [c]) a.
Proof.
  induction fuel as [|fuel IH]; intros b a Hlen; [lia|].
  destruct a as [|c a]; [reflexivity|]. cbn [length] in Hlen.
  cbn [replace_loop flat_map]. unfold exec_at.
  cbn [rmatch step advance after before caps].
  destruct (class_match plain negated items c).
  - unfold pos. cbn [before after length].
    replace (S (length b) - length b) with 1 by lia. cbn [firstn].
    rewrite IH by lia. reflexivity.
  - rewrite IH by lia. reflexivity.
Qed.

(** Replacing [\s+] by a space adds no character but the space. *)
Lemma replace_loop_whitespace :
  forall fuel b a c,
    length a < fuel ->
    In c (replace_loop fuel plain Patterns.whitespace (fun _ _ => lit " ") b a) ->
    c = " "%char \/ In c a.
Proof.
  induction fuel as [|fuel IH]; intros b a c Hlen Hin; [lia|].
  cbn [replace_loop] in Hin.
  pose proof (exec_whitespace b a) as Hex.
  destruct (exec_at plain Patterns.whitespace b a) as [y|].
  - destruct Hex as (pre & Hne & Ha & Hb & _).
    assert (Hpos : pos y - length b = length pre).
    { unfold pos. rewrite Hb, length_app, length_rev. lia. }
    rewrite Hpos in Hin.
    destruct pre as [|x pre]; [congruence|].
    rewrite Ha in Hin at 1. cbn [length firstn app] in Hin.
    apply in_app_or in Hin as [[<- | []] | Hin]; [now left|].
    apply IH in Hin.
    + destruct Hin as [Hin | Hin]; [now left|]. right. rewrite Ha.
      apply in_or_app. now right.
    + apply (f_equal (@length ascii)) in Ha. rewrite length_app in Ha.
      cbn [length] in Ha. lia.
  - destruct a as [|x a]; [destruct Hin|]. cbn [app length] in *.
    destruct Hin as [<- | Hin]; [right; now left|].
    apply IH in Hin; [|lia]. destruct Hin as [Hin | Hin]; [now left|right; now right].
Qed.

(** The pieces of a split at [\s+] are made of characters of the string. *)
Lemma split_loop_whitespace_chars :
  forall fuel b a acc piece c,
    length a < fuel ->
    In piece (split_loop fuel plain Patterns.whitespace b a acc) ->
    In c piece -> In c acc \/ In c a.
Proof.
  induction fuel as [|fuel IH]; intros b a acc piece c Hlen Hin Hc; [lia|].
  destruct a as [|x a]; cbn [split_loop] in Hin.
  - destruct Hin as [<- | []]. left. now apply in_rev.
  - cbn [length] in Hlen.
    pose proof (exec_whitespace b (x :: a)) as Hex.
    destruct (exec_at plain Patterns.whitespace b (x :: a)) as [y|].
    + destruct Hex as (pre & Hne & Ha & Hb & _).
      assert (Hpos : pos y = length b + length pre).
      { unfold pos. rewrite Hb, length_app, length_rev. lia. }
      assert (Hpre : 1 <= length pre) by (destruct pre; [congruence|cbn; lia]).
      replace (pos y =? length b) with false in Hin
        by (symmetry; apply Nat.eqb_neq; lia).
      cbn [andb] in Hin.
      replace (pos y - length b) with (S (length pre - 1)) in Hin by lia.
      cbn [firstn] in Hin.
      destruct Hin as [<- | Hin]; [left; now apply in_rev|].
      apply (IH _ _ _ _ c) in Hin; [|  |exact Hc].
      * destruct Hin as [[] | Hin]. right. rewrite Ha.
        apply in_or_app. now right.
      * apply (f_equal (@length ascii)) in Ha. rewrite length_app in Ha.
        cbn [length] in Ha. lia.
    + apply (IH _ _ _ _ c) in Hin; [|lia|exact Hc].
      destruct Hin as [[<- | Hin] | Hin]; cbn [In]; auto.
Qed.

Lemma split_re_whitespace_chars (s piece : str) (c : ascii) :
  In piece (split_re plain Patterns.whitespace s) -> In c piece -> In c s.
Proof.
  unfold split_re. destruct s as [|x s].
  - destruct (exec_at plain Patterns.whitespace [] []);
      [intros []|intros [<- | []] []].
  - intros Hp Hc.
    destruct (@split_loop_whitespace_chars _ _ _ _ _ c (Nat.lt_succ_diag_r _) Hp Hc)
      as [[] | H].
    exact H.
Qed.

(** What [\w], the apostrophe and the hyphen become in lower case. *)
Lemma kept_lowerChar (c : ascii) :
  class_match plain true [CWord; CSpace; CChar "'"; CChar "-"] c = false ->
  isSpace c = false ->
  isLowerAZ (lowerChar c) || isDigit (lowerChar c)
  || char_eqb "_" (lowerChar c) || char_eqb "'" (lowerChar c)
  || char_eqb "-" (lowerChar c) = true.
Proof.
  destruct c as [[] [] [] [] [] [] [] []]; vm_compute; intros H1 H2;
    congruence.
Qed.

Lemma replace_with_whitespace_chars (s : str) (c : ascii) :
  In c (replace_with plain Patterns.whitespace (lit " ") s) ->
  c = " "%char \/ In c s.
Proof.
  unfold replace_with, replace. apply replace_loop_whitespace. lia.
Qed.

Lemma replace_with_not_word_char (s : str) (c : ascii) :
  In c (replace_with plain Patterns.not_word_char (lit " ") s) ->
  c = " "%char
  \/ class_match plain true [CWord; CSpace; CChar "'"; CChar "-"] c = false.
Proof.
  unfold replace_with, replace, Patterns.not_word_char.
  rewrite replace_loop_class by lia. intros Hin.
  apply in_flat_map in Hin as (c0 & _ & Hin).
  destruct (class_match plain true _ c0) eqn:Ek.
  - destruct Hin as [<- | []]. now left.
  - destruct Hin as [<- | []]. now right.
Qed.

(** The last steps of [extractWords] before the filter. *)
Lemma In_extractWords_piece (text w : str) :
  In w (extractWords text) ->
  exists rest piece,
    In piece
       (split_re plain Patterns.whitespace
          (trim (replace_with plain Patterns.whitespace (lit " ")
                   (replace_with plain Patterns.not_word_char (lit " ") rest))))
    /\ In w (splitCompound piece).
Proof.
  unfold extractWords. destruct (length text =? 0); [intros []|].
  cbv zeta. intros Hw.
  pose proof (proj1 (filter_In _ _ _) Hw) as [Hw' _].
  pose proof (proj1 (in_flat_map _ _ _) Hw') as (piece & Hpiece & Hin).
  eexists. exists piece. split; [exact Hpiece|exact Hin].
Qed.

(** X13: a word returned by [extractWords] is written with the letters
    a-z, the digits, the underscore, the apostrophe and the hyphen, and
    with nothing else. *)
Theorem extractWords_alphabet (text w : str) (c : ascii) :
  In w (extractWords text) -> In c w ->
  isLowerAZ c || isDigit c || char_eqb "_" c || char_eqb "'" c
  || char_eqb "-" c = true.
Proof.
  intros Hw Hc.
  destruct (In_extractWords_piece _ _ Hw) as (rest & piece & Hpiece & Hin).
  destruct (splitCompound_parts _ _ Hin) as [Hlow _].
  destruct (Hlow c Hc) as (c' & Hc' & ->).
  pose proof (split_re_whitespace _ _ Hpiece) as Hsp.
  rewrite Forall_forall in Hsp. specialize (Hsp c' Hc').
  pose proof (split_re_whitespace_chars _ _ _ Hpiece Hc') as H.
  apply In_trim in H.
  destruct (replace_with_whitespace_chars _ _ H) as [-> | H1];
    [discriminate Hsp|].
  destruct (replace_with_not_word_char _ _ H1) as [-> | H2];
    [discriminate Hsp|].
  now apply kept_lowerChar.
Qed.

Lemma extractWords_alphabet_witness :
  isLowerAZ "'" || isDigit "'" || char_eqb "_" "'" || char_eqb "'" "'"
  || char_eqb "-" "'" = true.
Proof.
  apply (@extractWords_alphabet (lit "Dr. Smith's dog") (lit "smith's") "'"%char).
  - vm_compute. right; left. reflexivity.
  - vm_compute. tauto.
Defined.
